(** * DevDaze: the content loader and the frontmatter parser of [main.go]

    A shallow embedding of [parseMarkdownFile], [getBlogPost],
    [getAllBlogPosts] and the [/blog/:slug] route of [main.go], with the
    properties of the blog's loading and parsing logic proved over it.

    Go strings are byte sequences: [string] is used with [ascii] as the
    8-bit byte.  The operating system, the YAML deserializer and the
    Markdown renderer are collaborators of the program; they appear as
    oracles the embedded functions are parameterised by. *)

From Stdlib Require Import String Ascii List ZArith Lia Bool Arith.
Import ListNotations.
Open Scope string_scope.
Open Scope Z_scope.

(** ** Byte-string slicing, as Go's [s[i:]] and [s[:j]] *)

Fixpoint drop (n : nat) (s : string) : string :=
  match n, s with
  | O, _ => s
  | S _, EmptyString => EmptyString
  | S n', String _ s' => drop n' s'
  end.

Fixpoint take (n : nat) (s : string) : string :=
  match n, s with
  | O, _ => EmptyString
  | S _, EmptyString => EmptyString
  | S n', String c s' => String c (take n' s')
  end.

Definition len (s : string) : Z := Z.of_nat (String.length s).

(** ** The functions of Go's [strings] package that [main.go] calls *)

Module strings.

(** [strings.HasPrefix(s, prefix)]: [len(s) >= len(prefix) &&
    s[:len(prefix)] == prefix]. *)
Fixpoint HasPrefix (s prefix : string) {struct prefix} : bool :=
  match prefix, s with
  | EmptyString, _ => true
  | String _ _, EmptyString => false
  | String p prefix', String c s' => Ascii.eqb c p && HasPrefix s' prefix'
  end.

(** [strings.HasSuffix(s, suffix)]: [len(s) >= len(suffix) &&
    s[len(s)-len(suffix):] == suffix]. *)
Definition HasSuffix (s suffix : string) : bool :=
  (String.length suffix <=? String.length s)%nat
  && String.eqb (drop (String.length s - String.length suffix) s) suffix.

(** The first position at which [substr] occurs in [s], if any. *)
Fixpoint index_from (s substr : string) : option nat :=
  if HasPrefix s substr then Some O
  else match s with
       | EmptyString => None
       | String _ s' => option_map S (index_from s' substr)
       end.

(** [strings.Index(s, substr)]: the index of the first instance of
    [substr] in [s], or [-1] if [substr] is not present. *)
Definition Index (s substr : string) : Z :=
  match index_from s substr with
  | Some i => Z.of_nat i
  | None => -1
  end.

(** [strings.Count(s, substr)] for a non-empty [substr]: the number of
    non-overlapping instances.  [fuel] bounds the loop; [length s]
    suffices since every round consumes at least one byte. *)
Fixpoint count_loop (fuel : nat) (s substr : string) : Z :=
  match fuel with
  | O => 0
  | S fuel' =>
      match index_from s substr with
      | None => 0
      | Some i => 1 + count_loop fuel' (drop (i + String.length substr) s) substr
      end
  end.

Definition Count (s substr : string) : Z :=
  count_loop (String.length s) s substr.

(** The loop of [genSplit]:
[[
    for i < n {
        m := Index(s, sep)
        if m < 0 { break }
        a[i] = s[:m+sepSave]
        s = s[m+len(sep):]
        i++
    }
    a[i] = s
]]
    with [sepSave = 0]; the argument counts the rounds left. *)
Fixpoint genSplit_loop (rounds : nat) (s sep : string) : list string :=
  match rounds with
  | O => [s]
  | S rounds' =>
      let m := Index s sep in
      if m <? 0 then [s]
      else take (Z.to_nat m) s
             :: genSplit_loop rounds' (drop (Z.to_nat (m + len sep)) s) sep
  end.

(** [strings.SplitN(s, sep, n)] is [genSplit(s, sep, 0, n)].  Only the
    branch for a non-empty separator is embedded: [main.go] passes the
    literal ["---"].
[[
    if n == 0 { return nil }
    if n < 0 { n = Count(s, sep) + 1 }
    if n > len(s)+1 { n = len(s) + 1 }
    a := make([]string, n)
    n--
]] *)
Definition SplitN (s sep : string) (n : Z) : list string :=
  if n =? 0 then []
  else
    let n := if n <? 0 then Count s sep + 1 else n in
    let n := if n >? len s + 1 then len s + 1 else n in
    genSplit_loop (Z.to_nat (n - 1)) s sep.

(** The byte [n]. *)
Definition byte (n : nat) : ascii := ascii_of_nat n.

Definition bytes (l : list nat) : string :=
  fold_right (fun n s => String (byte n) s) EmptyString l.

(** The white-space runes of [unicode.IsSpace], each as the bytes of its
    UTF-8 encoding.  In Latin-1 they are ['\t'], ['\n'], ['\v'], ['\f'],
    ['\r'], [' '], U+0085 and U+00A0; beyond it the code points with the
    White_Space property: U+1680, U+2000 to U+200A, U+2028, U+2029,
    U+202F, U+205F and U+3000.  The decoder accepts only the shortest
    encoding of a rune, so a string starts (ends) with a white-space rune
    exactly when it starts (ends) with one of these byte sequences. *)
Definition spaceRunes : list string :=
  map bytes
    [ [9]; [10]; [11]; [12]; [13]; [32];
      [194; 133]; [194; 160];
      [225; 154; 128];
      [226; 128; 128]; [226; 128; 129]; [226; 128; 130]; [226; 128; 131];
      [226; 128; 132]; [226; 128; 133]; [226; 128; 134]; [226; 128; 135];
      [226; 128; 136]; [226; 128; 137]; [226; 128; 138];
      [226; 128; 168]; [226; 128; 169]; [226; 128; 175];
      [226; 129; 159];
      [227; 128; 128] ]%nat.

(** The string without its leading white-space rune, if it has one. *)
Definition dropLeadingSpace (s : string) : option string :=
  match find (HasPrefix s) spaceRunes with
  | Some r => Some (drop (String.length r) s)
  | None => None
  end.

(** The string without its trailing white-space rune, if it has one. *)
Definition dropTrailingSpace (s : string) : option string :=
  match find (HasSuffix s) spaceRunes with
  | Some r => Some (take (String.length s - String.length r) s)
  | None => None
  end.

(** [strings.TrimLeftFunc(s, unicode.IsSpace)]: runes are dropped from the
    front while they are white space. *)
Fixpoint trimLeft (fuel : nat) (s : string) : string :=
  match fuel with
  | O => s
  | S fuel' =>
      match dropLeadingSpace s with
      | Some s' => trimLeft fuel' s'
      | None => s
      end
  end.

(** [strings.TrimRightFunc(s, unicode.IsSpace)]. *)
Fixpoint trimRight (fuel : nat) (s : string) : string :=
  match fuel with
  | O => s
  | S fuel' =>
      match dropTrailingSpace s with
      | Some s' => trimRight fuel' s'
      | None => s
      end
  end.

Definition TrimLeftSpace (s : string) : string := trimLeft (String.length s) s.
Definition TrimRightSpace (s : string) : string := trimRight (String.length s) s.

(** [strings.TrimSpace(s)]: all leading and trailing white space removed,
    as defined by Unicode; the front is trimmed first. *)
Definition TrimSpace (s : string) : string :=
  TrimRightSpace (TrimLeftSpace s).

End strings.

(** ** Data model *)

(** [time.Time], as the seconds since January 1, year 1 00:00:00 UTC and
    the nanoseconds within the second; the zero value is the zero
    instant. *)
Record Time : Type := mkTime { sec : Z; nsec : Z }.

Definition zeroTime : Time := mkTime 0 0.

(** [BlogMetadata]: the frontmatter of a markdown file. *)
Module BlogMetadata.
Record t : Type := mk {
  Title : string;
  Date : Time;
  Author : string;
  Description : string;
  Tags : list string;
  Slug : string
}.

(** The zero value, as [var metadata BlogMetadata] declares it. *)
Definition zero : t := mk "" zeroTime "" "" [] "".
End BlogMetadata.

(** [BlogPost]: a blog post with metadata. *)
Module BlogPost.
Record t : Type := mk {
  Title : string;
  Date : Time;
  Author : string;
  Description : string;
  Tags : list string;
  Slug : string;
  Content : string;
  HTMLContent : string
}.
End BlogPost.

(** Go's [error] values, by dynamic type: the [*fs.PathError] of package
    [os] (the operation, the path and the [syscall.Errno]) and the plain
    text error that [fmt.Errorf] makes when its format has no [%w]. *)
Inductive error : Type :=
| PathError (Op Path : string) (Err : Z)
| errorString (s : string).

(** A [(value, error)] pair of which the code uses one side. *)
Inductive result (A : Type) : Type :=
| Ok (a : A)
| Err (err : error).
Arguments Ok {A} a.
Arguments Err {A} err.

Definition ENOENT : Z := 2.
Definition EACCES : Z := 13.

(** [os.IsNotExist(err)]: false for [nil]; for a [*PathError] the
    underlying [Errno] is compared with [ENOENT]. *)
Definition os_IsNotExist (err : option error) : bool :=
  match err with
  | Some (PathError _ _ e) => e =? ENOENT
  | _ => false
  end.

(** ** Collaborators *)

(** An entry of a directory listing; the code reads its [Name()] only. *)
Record DirEntry : Type := mkDirEntry { Name : string }.

(** A field store of the deserializer through the pointer it is given. *)
Inductive store : Type :=
| SetTitle (v : string)
| SetDate (v : Time)
| SetAuthor (v : string)
| SetDescription (v : string)
| SetTags (v : list string)
| SetSlug (v : string).

Definition assign (m : BlogMetadata.t) (w : store) : BlogMetadata.t :=
  match m with
  | BlogMetadata.mk title date author description tags slug =>
      match w with
      | SetTitle v => BlogMetadata.mk v date author description tags slug
      | SetDate v => BlogMetadata.mk title v author description tags slug
      | SetAuthor v => BlogMetadata.mk title date v description tags slug
      | SetDescription v => BlogMetadata.mk title date author v tags slug
      | SetTags v => BlogMetadata.mk title date author description v slug
      | SetSlug v => BlogMetadata.mk title date author description tags v
      end
  end.

(** What a system call answers: its value, or the operation that failed
    and the [syscall.Errno] it failed with. *)
Inductive answer (A : Type) : Type :=
| Done (a : A)
| Failed (op : string) (errno : Z).
Arguments Done {A} a.
Arguments Failed {A} op errno.

(** The collaborators of the loader and the parser:
    - [Stat], [ReadDir], [ReadFile]: the file system as [os.Stat],
      [os.ReadDir] and [os.ReadFile] answer for a path ([Stat]'s
      [FileInfo] is dropped by the code, so only its failure is kept);
    - [decode]: what [yaml.Unmarshal] does with a document when its
      target is a [*BlogMetadata]: the stores it performs on the fields
      and the text of the error it returns, if it returns one;
    - [Run]: [blackfriday.Run], from Markdown to HTML. *)
Record Env : Type := mkEnv {
  Stat : string -> answer unit;
  ReadDir : string -> answer (list DirEntry);
  ReadFile : string -> answer string;
  decode : string -> list store * option string;
  Run : string -> string
}.

(** The package [os] reports a failed call as a [*PathError] that holds
    the operation, the path and the [Errno]. *)
Definition os_result {A : Type} (name : string) (a : answer A) : result A :=
  match a with
  | Done v => Ok v
  | Failed op errno => Err (PathError op name errno)
  end.

(** [yaml.Unmarshal(in, &out)]: the fields of [out] that the document
    sets are overwritten, the others keep their value. *)
Definition yaml_Unmarshal (env : Env) (input : string) (out : BlogMetadata.t)
  : BlogMetadata.t * option string :=
  let (stores, err) := decode env input in
  (fold_left assign stores out, err).

(** ** Effects: the trace of system calls and log lines *)

Inductive arg : Type :=
| ArgString (s : string)
| ArgError (e : error).

Inductive event : Type :=
| EvStat (name : string)
| EvReadDir (name : string)
| EvReadFile (name : string)
| EvLogPrintf (format : string) (args : list arg).

Definition IO (A : Type) : Type := list event -> A * list event.

Definition ret {A : Type} (a : A) : IO A := fun tr => (a, tr).

Definition bind {A B : Type} (m : IO A) (k : A -> IO B) : IO B :=
  fun tr => let (a, tr') := m tr in k a tr'.

Definition emit (e : event) : IO unit := fun tr => (tt, (tr ++ [e])%list).

Declare Scope io_scope.
Delimit Scope io_scope with io.
Notation "x <- m ;; k" := (bind m (fun x => k))
  (at level 61, m at next level, right associativity) : io_scope.
Notation "m ;;; k" := (bind m (fun _ => k))
  (at level 61, right associativity) : io_scope.

(** A run from the empty trace. *)
Definition run {A : Type} (m : IO A) : A * list event := m [].

Definition os_Stat (env : Env) (name : string) : IO (option error) :=
  (emit (EvStat name) ;;;
   ret (match os_result name (Stat env name) with
        | Ok _ => None
        | Err err => Some err
        end))%io.

Definition os_ReadDir (env : Env) (name : string) : IO (result (list DirEntry)) :=
  (emit (EvReadDir name) ;;; ret (os_result name (ReadDir env name)))%io.

Definition os_ReadFile (env : Env) (name : string) : IO (result string) :=
  (emit (EvReadFile name) ;;; ret (os_result name (ReadFile env name)))%io.

Definition log_Printf (format : string) (args : list arg) : IO unit :=
  emit (EvLogPrintf format args).

(** [filepath.Join(dir, name)]: the elements joined by a slash and the
    result cleaned.  For a directory-entry name (one path element, neither
    [.] nor [..]) cleaning only removes a leading [./] of [dir]. *)
Definition filepath_Join (dir name : string) : string :=
  (if strings.HasPrefix dir "./" then drop 2 dir else dir) ++ "/" ++ name.

(** ** [parseMarkdownFile]: a markdown file with YAML frontmatter *)

Definition errNoFrontmatter : error := errorString "no frontmatter found".

Definition errInvalidFrontmatter : error :=
  errorString "invalid frontmatter format".

(** [fmt.Errorf("error parsing frontmatter: %v", err)] *)
Definition errParsingFrontmatter (detail : string) : error :=
  errorString ("error parsing frontmatter: " ++ detail).

Definition parseMarkdownFile (env : Env) (content : string)
  : result BlogPost.t :=
  let contentStr := content in
  (* Check for frontmatter *)
  if negb (strings.HasPrefix contentStr "---") then Err errNoFrontmatter
  else
    (* Split frontmatter and content *)
    match strings.SplitN (drop 3 contentStr) "---" 2 with
    | [part0; part1] =>
        let frontmatter := strings.TrimSpace part0 in
        let markdownContent := strings.TrimSpace part1 in
        (* Parse YAML frontmatter *)
        let (metadata, err) :=
          yaml_Unmarshal env frontmatter BlogMetadata.zero in
        match err with
        | Some detail => Err (errParsingFrontmatter detail)
        | None =>
            (* Convert markdown to HTML *)
            let htmlContent := Run env markdownContent in
            (* Create blog post *)
            Ok (BlogPost.mk
                  (BlogMetadata.Title metadata)
                  (BlogMetadata.Date metadata)
                  (BlogMetadata.Author metadata)
                  (BlogMetadata.Description metadata)
                  (BlogMetadata.Tags metadata)
                  (BlogMetadata.Slug metadata)
                  markdownContent
                  htmlContent)
        end
    | _ => Err errInvalidFrontmatter
    end.

(** ** The content loader *)

Definition contentDir : string := "./content".

(** [fmt.Errorf("blog post with slug '%s' not found", slug)] *)
Definition errNotFound (slug : string) : error :=
  errorString ("blog post with slug '" ++ slug ++ "' not found").

(** The [for _, file := range files] loop of [getBlogPost]; [None] when
    the loop falls through. *)
Fixpoint getBlogPost_loop (env : Env) (slug : string) (files : list DirEntry)
  : IO (option BlogPost.t) :=
  match files with
  | [] => ret None
  | file :: files' =>
      if negb (strings.HasSuffix (Name file) ".md")
      then getBlogPost_loop env slug files'
      else
        let filePath := filepath_Join contentDir (Name file) in
        (r <- os_ReadFile env filePath ;;
         match r with
         | Err _ => getBlogPost_loop env slug files'
         | Ok content =>
             match parseMarkdownFile env content with
             | Err _ => getBlogPost_loop env slug files'
             | Ok post =>
                 if String.eqb (BlogPost.Slug post) slug
                 then ret (Some post)
                 else getBlogPost_loop env slug files'
             end
         end)%io
  end.

(** [getBlogPost]: loads and parses a single blog post by slug. *)
Definition getBlogPost (env : Env) (slug : string) : IO (result BlogPost.t) :=
  (r <- os_ReadDir env contentDir ;;
   match r with
   | Err err => ret (Err err)
   | Ok files =>
       found <- getBlogPost_loop env slug files ;;
       match found with
       | Some post => ret (Ok post)
       | None => ret (Err (errNotFound slug))
       end
   end)%io.

(** The loop of [getAllBlogPosts], with [posts] as it stands on entry. *)
Fixpoint getAllBlogPosts_loop (env : Env) (files : list DirEntry)
  (posts : list BlogPost.t) : IO (list BlogPost.t) :=
  match files with
  | [] => ret posts
  | file :: files' =>
      if negb (strings.HasSuffix (Name file) ".md")
      then getAllBlogPosts_loop env files' posts
      else
        let filePath := filepath_Join contentDir (Name file) in
        (r <- os_ReadFile env filePath ;;
         match r with
         | Err err =>
             log_Printf "Error reading file %s: %v"
               [ArgString filePath; ArgError err] ;;;
             getAllBlogPosts_loop env files' posts
         | Ok content =>
             match parseMarkdownFile env content with
             | Err err =>
                 log_Printf "Error parsing file %s: %v"
                   [ArgString filePath; ArgError err] ;;;
                 getAllBlogPosts_loop env files' posts
             | Ok post => getAllBlogPosts_loop env files' (posts ++ [post])%list
             end
         end)%io
  end.

(** [getAllBlogPosts]: loads and parses all blog posts. *)
Definition getAllBlogPosts (env : Env) : IO (result (list BlogPost.t)) :=
  let posts : list BlogPost.t := [] in
  (* Check if content directory exists *)
  (err <- os_Stat env contentDir ;;
   if os_IsNotExist err then ret (Ok posts)
   else
     r <- os_ReadDir env contentDir ;;
     match r with
     | Err err => ret (Err err)
     | Ok files =>
         posts' <- getAllBlogPosts_loop env files posts ;;
         ret (Ok posts')
     end)%io.

(** ** The routes that call the loader *)

Inductive Response : Type :=
| SendString (status : Z) (body : string)
| Render (name title : string) (post : BlogPost.t)
| RenderList (name title : string) (posts : list BlogPost.t).

(** [app.Get("/blog/:slug", ...)] *)
Definition blogSlugHandler (env : Env) (slug : string) : IO Response :=
  (r <- getBlogPost env slug ;;
   match r with
   | Err _ => ret (SendString 404 "Blog post not found")
   | Ok post => ret (Render "post" (BlogPost.Title post) post)
   end)%io.

(** [app.Get("/blog", ...)] *)
Definition blogHandler (env : Env) : IO Response :=
  (r <- getAllBlogPosts env ;;
   match r with
   | Err _ => ret (SendString 500 "Error loading blog posts")
   | Ok posts => ret (RenderList "blog" "All Blog Posts" posts)
   end)%io.

(** ** Reference notions the properties are stated with *)

Definition LF : string := strings.bytes [10%nat].
Definition CR : string := strings.bytes [13%nat].

(** [sep] occurs in [s]. *)
Definition occurs (sep s : string) : Prop :=
  exists a b, s = a ++ sep ++ b.

(** The text begins with a line that consists of three hyphens: the
    hyphens are followed by the end of the line or of the text. *)
Definition beginsWithDelimiterLine (s : string) : bool :=
  String.eqb s "---"
  || strings.HasPrefix s ("---" ++ LF)
  || strings.HasPrefix s ("---" ++ CR ++ LF).

(** A run of white-space runes. *)
Inductive whitespace : string -> Prop :=
| ws_nil : whitespace ""
| ws_rune : forall r s, In r strings.spaceRunes -> whitespace s ->
    whitespace (r ++ s).

(** [t] is [s] with its leading and trailing white space removed. *)
Definition trimmedOf (s t : string) : Prop :=
  (exists l r, s = l ++ t ++ r /\ whitespace l /\ whitespace r)
  /\ (forall r, In r strings.spaceRunes -> strings.HasPrefix t r = false)
  /\ (forall r, In r strings.spaceRunes -> strings.HasSuffix t r = false).

(** The post that the parser builds from the deserializer's stores and
    the trimmed body. *)
Definition postOf (env : Env) (stores : list store)
  (markdownContent : string) : BlogPost.t :=
  let metadata := fold_left assign stores BlogMetadata.zero in
  BlogPost.mk (BlogMetadata.Title metadata) (BlogMetadata.Date metadata)
    (BlogMetadata.Author metadata) (BlogMetadata.Description metadata)
    (BlogMetadata.Tags metadata) (BlogMetadata.Slug metadata)
    markdownContent (Run env markdownContent).

(** The post that one directory entry contributes: the entry has the
    Markdown extension, its file reads and its content parses. *)
Definition entryPost (env : Env) (file : DirEntry) : option BlogPost.t :=
  if strings.HasSuffix (Name file) ".md" then
    match ReadFile env (filepath_Join contentDir (Name file)) with
    | Done content =>
        match parseMarkdownFile env content with
        | Ok post => Some post
        | Err _ => None
        end
    | Failed _ _ => None
    end
  else None.

(** The slug of no post of [files] is [slug]. *)
Definition noMatch (env : Env) (slug : string) (files : list DirEntry) : Prop :=
  forall file post,
    In file files -> entryPost env file = Some post ->
    BlogPost.Slug post <> slug.

(** The posts of a listing: those of the entries that contribute one, in
    the order of the listing. *)
Definition listingPosts (env : Env) (files : list DirEntry) : list BlogPost.t :=
  flat_map (fun file => match entryPost env file with
                        | Some post => [post]
                        | None => []
                        end) files.

(** The paths of the files that a scan of [files] reads. *)
Definition readPaths (files : list DirEntry) : list string :=
  map (fun file => filepath_Join contentDir (Name file))
      (filter (fun file => strings.HasSuffix (Name file) ".md") files).

(** The fields of the frontmatter. *)
Inductive field : Type :=
| FTitle | FDate | FAuthor | FDescription | FTags | FSlug.

Definition fieldOf (w : store) : field :=
  match w with
  | SetTitle _ => FTitle
  | SetDate _ => FDate
  | SetAuthor _ => FAuthor
  | SetDescription _ => FDescription
  | SetTags _ => FTags
  | SetSlug _ => FSlug
  end.

(** No store of the deserializer goes to the field [f]: the document
    omits it. *)
Definition omits (f : field) (stores : list store) : Prop :=
  ~ In f (map fieldOf stores).

(** ** A sample content directory, for the examples *)

(** The deserializer on the documents of the examples. *)
Definition sampleDecode (doc : string) : list store * option string :=
  if String.eqb doc ("title: Hello" ++ LF ++ "slug: hello")
  then ([SetTitle "Hello"; SetSlug "hello"], None)
  else if String.eqb doc "slug: other"
  then ([SetSlug "other"], None)
  else if String.eqb doc "title: ["
  then ([], Some "yaml: line 1: did not find expected node content")
  else ([], None).

Definition helloFile : string :=
  "---" ++ LF ++ "title: Hello" ++ LF ++ "slug: hello" ++ LF ++ "---" ++ LF
  ++ "# Hi" ++ LF ++ "---" ++ LF ++ "Some **bold** text." ++ LF.

Definition otherFile : string :=
  "---" ++ LF ++ "slug: other" ++ LF ++ "---" ++ LF ++ "Other." ++ LF.

(** The slug of [otherFile] once more. *)
Definition firstFile : string :=
  "---" ++ LF ++ "slug: other" ++ LF ++ "---" ++ LF ++ "First." ++ LF.

(** No closing delimiter. *)
Definition brokenFile : string :=
  "---" ++ LF ++ "title: Broken" ++ LF ++ "No end of the frontmatter." ++ LF.

Definition sampleReadFile (name : string) : answer string :=
  if String.eqb name "content/broken.md" then Done brokenFile
  else if String.eqb name "content/first.md" then Done firstFile
  else if String.eqb name "content/hello.md" then Done helloFile
  else if String.eqb name "content/other.md" then Done otherFile
  else if String.eqb name "content/secret.md" then Failed "open" EACCES
  else Failed "open" ENOENT.

Definition sampleFiles : list DirEntry :=
  map mkDirEntry
    ["broken.md"; "first.md"; "hello.md"; "notes.txt"; "other.md"; "secret.md"].

(** The content directory holds [sampleFiles]. *)
Definition sampleEnv : Env :=
  mkEnv (fun _ => Done tt)
        (fun name => if String.eqb name contentDir then Done sampleFiles
                     else Failed "open" ENOENT)
        sampleReadFile sampleDecode (fun markdown => "<p>" ++ markdown ++ "</p>").

(** The content directory holds one valid and one malformed file. *)
Definition twoFilesEnv : Env :=
  mkEnv (fun _ => Done tt)
        (fun name => if String.eqb name contentDir
                     then Done (map mkDirEntry ["broken.md"; "hello.md"])
                     else Failed "open" ENOENT)
        sampleReadFile sampleDecode (fun markdown => "<p>" ++ markdown ++ "</p>").

(** There is no content directory. *)
Definition emptyEnv : Env :=
  mkEnv (fun _ => Failed "stat" ENOENT)
        (fun _ => Failed "open" ENOENT)
        (fun _ => Failed "open" ENOENT)
        sampleDecode (fun markdown => markdown).

(** ** Reading a trace, and what one entry adds to it *)

(** The paths of the files read, in the order of the reads. *)
Definition readsOf (tr : list event) : list string :=
  flat_map (fun e => match e with
                     | EvReadFile name => [name]
                     | _ => []
                     end) tr.

(** The log lines, as format and arguments. *)
Definition logsOf (tr : list event) : list (string * list arg) :=
  flat_map (fun e => match e with
                     | EvLogPrintf format args => [(format, args)]
                     | _ => []
                     end) tr.

(** The events of one round of the loop of [getAllBlogPosts]. *)
Definition entryEvents (env : Env) (file : DirEntry) : list event :=
  if strings.HasSuffix (Name file) ".md" then
    let filePath := filepath_Join contentDir (Name file) in
    EvReadFile filePath
    :: match ReadFile env filePath with
       | Failed op errno =>
           [EvLogPrintf "Error reading file %s: %v"
              [ArgString filePath; ArgError (PathError op filePath errno)]]
       | Done content =>
           match parseMarkdownFile env content with
           | Err err =>
               [EvLogPrintf "Error parsing file %s: %v"
                  [ArgString filePath; ArgError err]]
           | Ok _ => []
           end
       end
  else [].

(** [os.Stat] reports that the content directory does not exist. *)
Definition statMissing (env : Env) : bool :=
  match Stat env contentDir with
  | Failed _ errno => errno =? ENOENT
  | Done _ => false
  end.

(** The content directory exists and cannot be read. *)
Definition lockedEnv : Env :=
  mkEnv (fun _ => Done tt)
        (fun _ => Failed "open" EACCES)
        (fun _ => Failed "open" EACCES)
        sampleDecode (fun markdown => markdown).

(** No byte of the text is a hyphen. *)
Fixpoint noHyphen (s : string) : bool :=
  match s with
  | EmptyString => true
  | String c s' => negb (Ascii.eqb c "-"%char) && noHyphen s'
  end.

(** * Properties *)

(** ** Byte strings *)

Section Slicing.

Implicit Types s a b c : string.

Lemma append_empty_r s : s ++ "" = s.
Proof. induction s as [|x s IH]; simpl; [reflexivity | now rewrite IH]. Qed.

Lemma append_assoc a b c : (a ++ b) ++ c = a ++ b ++ c.
Proof. induction a as [|x a IH]; simpl; [reflexivity | now rewrite IH]. Qed.

Lemma length_append a b :
  String.length (a ++ b) = (String.length a + String.length b)%nat.
Proof. induction a as [|x a IH]; simpl; [reflexivity | now rewrite IH]. Qed.

Lemma take_drop n s : take n s ++ drop n s = s.
Proof.
  revert s; induction n as [|n IH]; intros [|x s]; simpl; try reflexivity.
  now rewrite IH.
Qed.

Lemma drop_append a b : drop (String.length a) (a ++ b) = b.
Proof. induction a as [|x a IH]; simpl; [reflexivity | exact IH]. Qed.

Lemma take_append a b : take (String.length a) (a ++ b) = a.
Proof. induction a as [|x a IH]; simpl; [reflexivity | now rewrite IH]. Qed.

Lemma drop_plus n m s : drop (n + m) s = drop m (drop n s).
Proof.
  revert s; induction n as [|n IH]; intros s; simpl; [reflexivity|].
  destruct s as [|x s]; [now destruct m | apply IH].
Qed.

Lemma length_take n s :
  (n <= String.length s)%nat -> String.length (take n s) = n.
Proof.
  revert s; induction n as [|n IH]; intros [|x s]; simpl; intros H;
    try reflexivity; try lia.
  rewrite IH; [reflexivity | lia].
Qed.

Lemma length_drop n s : String.length (drop n s) = (String.length s - n)%nat.
Proof.
  revert s; induction n as [|n IH]; intros [|x s]; simpl; try reflexivity.
  apply IH.
Qed.

End Slicing.

(** ** [strings.HasPrefix], [strings.HasSuffix] and [strings.Index] *)

Section Searching.

Implicit Types s p a b sep : string.

Lemma HasPrefix_append p b : strings.HasPrefix (p ++ b) p = true.
Proof.
  induction p as [|x p IH]; simpl; [reflexivity|].
  now rewrite Ascii.eqb_refl, IH.
Qed.

Lemma HasPrefix_inv s p :
  strings.HasPrefix s p = true -> s = p ++ drop (String.length p) s.
Proof.
  revert s; induction p as [|x p IH]; intros s H; simpl in *; [reflexivity|].
  destruct s as [|c s]; [discriminate|].
  apply andb_true_iff in H as [Hc Hp].
  apply Ascii.eqb_eq in Hc; subst c. simpl. f_equal. now apply IH.
Qed.

Lemma HasPrefix_iff s p :
  strings.HasPrefix s p = true <-> exists b, s = p ++ b.
Proof.
  split.
  - intros H. eexists. now apply HasPrefix_inv.
  - intros [b ->]. apply HasPrefix_append.
Qed.

Lemma HasSuffix_iff s p :
  strings.HasSuffix s p = true <-> exists a, s = a ++ p.
Proof.
  unfold strings.HasSuffix. split.
  - intros H. apply andb_true_iff in H as [Hl He].
    apply Nat.leb_le in Hl. apply String.eqb_eq in He.
    exists (take (String.length s - String.length p) s).
    pose proof (take_drop (String.length s - String.length p) s) as Htd.
    rewrite He in Htd. now symmetry.
  - intros [a ->]. rewrite length_append.
    apply andb_true_iff. split; [apply Nat.leb_le; lia|].
    replace (String.length a + String.length p - String.length p)%nat
      with (String.length a) by lia.
    rewrite drop_append. apply String.eqb_refl.
Qed.

Lemma index_from_eq s sep :
  strings.index_from s sep =
    if strings.HasPrefix s sep then Some O
    else match s with
         | EmptyString => None
         | String _ s' => option_map S (strings.index_from s' sep)
         end.
Proof. destruct s; reflexivity. Qed.

(** [index_from] finds an occurrence, and the first one. *)
Lemma index_from_Some s sep i :
  strings.index_from s sep = Some i ->
  (i <= String.length s)%nat
  /\ strings.HasPrefix (drop i s) sep = true
  /\ forall j, (j < i)%nat -> strings.HasPrefix (drop j s) sep = false.
Proof.
  revert i; induction s as [|c s IH]; intros i; rewrite index_from_eq.
  - destruct (strings.HasPrefix "" sep) eqn:E; [|intros H; discriminate H].
    intros [= <-]. repeat split; [simpl; lia | exact E | intros j Hj; lia].
  - destruct (strings.HasPrefix (String c s) sep) eqn:E.
    + intros [= <-]. repeat split; [simpl; lia | exact E | intros j Hj; lia].
    + destruct (strings.index_from s sep) as [k|] eqn:Ek;
        [|intros H; discriminate H].
      simpl. intros [= <-]. destruct (IH k eq_refl) as (Hk & Hp & Hfirst).
      repeat split; [lia | exact Hp |].
      intros [|j] Hj; simpl; [exact E | apply Hfirst; lia].
Qed.

Lemma index_from_None s sep :
  strings.index_from s sep = None ->
  forall j, strings.HasPrefix (drop j s) sep = false.
Proof.
  induction s as [|c s IH]; rewrite index_from_eq.
  - destruct (strings.HasPrefix "" sep) eqn:E; [intros H; discriminate H|].
    intros _ [|j]; exact E.
  - destruct (strings.HasPrefix (String c s) sep) eqn:E;
      [intros H; discriminate H|].
    destruct (strings.index_from s sep) eqn:Ek; [intros H; discriminate H|].
    intros _ [|j]; simpl; [exact E | now apply IH].
Qed.

(** Absence, in terms of occurrences. *)
Lemma index_from_None_iff s sep :
  strings.index_from s sep = None <-> ~ occurs sep s.
Proof.
  split.
  - intros H [a [b ->]].
    pose proof (index_from_None _ _ H (String.length a)) as Hn.
    rewrite drop_append, HasPrefix_append in Hn. discriminate.
  - intros Hno. destruct (strings.index_from s sep) as [i|] eqn:E;
      [|reflexivity].
    exfalso. apply Hno. destruct (index_from_Some _ _ _ E) as (_ & Hp & _).
    exists (take i s), (drop (String.length sep) (drop i s)).
    rewrite <- (HasPrefix_inv _ _ Hp). symmetry. apply take_drop.
Qed.

Lemma Index_absent_iff s sep : strings.Index s sep = -1 <-> ~ occurs sep s.
Proof.
  rewrite <- index_from_None_iff. unfold strings.Index.
  destruct (strings.index_from s sep); split; intros H;
    try reflexivity; try discriminate; lia.
Qed.

Lemma genSplit_loop_1 s sep :
  strings.genSplit_loop 1 s sep =
    match strings.index_from s sep with
    | Some i => [take i s; drop (i + String.length sep) s]
    | None => [s]
    end.
Proof.
  cbn [strings.genSplit_loop]. unfold strings.Index, len.
  destruct (strings.index_from s sep) as [i|]; [|reflexivity].
  replace (Z.of_nat i <? 0) with false by (symmetry; apply Z.ltb_ge; lia).
  now rewrite Nat2Z.id, <- Nat2Z.inj_add, Nat2Z.id.
Qed.

(** [strings.SplitN] with [n = 2] and a non-empty separator: one cut at
    the first occurrence of the separator, or no cut. *)
Lemma SplitN_2 s sep :
  sep <> "" ->
  strings.SplitN s sep 2 =
    match strings.index_from s sep with
    | Some i => [take i s; drop (i + String.length sep) s]
    | None => [s]
    end.
Proof.
  intros Hsep. unfold strings.SplitN.
  change (2 =? 0) with false. change (2 <? 0) with false. cbv iota zeta.
  destruct (2 >? len s + 1) eqn:E.
  - rewrite Z.gtb_ltb in E. apply Z.ltb_lt in E. unfold len in *.
    destruct s as [|c s]; [|simpl String.length in E; lia].
    destruct sep; [contradiction | reflexivity].
  - change (Z.to_nat (2 - 1)) with 1%nat. apply genSplit_loop_1.
Qed.

End Searching.

(** ** [strings.TrimSpace] *)

Section Trimming.

Implicit Types s t l r : string.

Lemma spaceRunes_nonempty r :
  In r strings.spaceRunes -> (1 <= String.length r)%nat.
Proof.
  assert (H : forallb (fun x => (1 <=? String.length x)%nat)
                strings.spaceRunes = true) by (vm_compute; reflexivity).
  rewrite forallb_forall in H. intros Hr. apply Nat.leb_le. now apply H.
Qed.

Lemma whitespace_app l r : whitespace l -> whitespace r -> whitespace (l ++ r).
Proof.
  induction 1 as [|x l Hx Hl IH]; intros Hr; [exact Hr|].
  rewrite append_assoc. constructor; [exact Hx | now apply IH].
Qed.

Lemma whitespace_rune r : In r strings.spaceRunes -> whitespace r.
Proof.
  intros H. rewrite <- (append_empty_r r). constructor; [exact H | constructor].
Qed.

Lemma dropLeadingSpace_Some s s' :
  strings.dropLeadingSpace s = Some s' ->
  exists r, In r strings.spaceRunes /\ s = r ++ s'.
Proof.
  unfold strings.dropLeadingSpace.
  destruct (find (strings.HasPrefix s) strings.spaceRunes) as [r|] eqn:E;
    [|discriminate].
  intros [= <-]. apply find_some in E as [Hin Hp].
  exists r. split; [exact Hin | now apply HasPrefix_inv].
Qed.

Lemma dropLeadingSpace_None s r :
  strings.dropLeadingSpace s = None ->
  In r strings.spaceRunes -> strings.HasPrefix s r = false.
Proof.
  unfold strings.dropLeadingSpace.
  destruct (find (strings.HasPrefix s) strings.spaceRunes) eqn:E;
    [discriminate|].
  intros _ Hin. exact (find_none _ _ E r Hin).
Qed.

Lemma dropTrailingSpace_Some s s' :
  strings.dropTrailingSpace s = Some s' ->
  exists r, In r strings.spaceRunes /\ s = s' ++ r.
Proof.
  unfold strings.dropTrailingSpace.
  destruct (find (strings.HasSuffix s) strings.spaceRunes) as [r|] eqn:E;
    [|discriminate].
  intros [= <-]. apply find_some in E as [Hin Hp].
  exists r. split; [exact Hin|].
  apply HasSuffix_iff in Hp as [a ->]. rewrite length_append.
  replace (String.length a + String.length r - String.length r)%nat
    with (String.length a) by lia.
  now rewrite take_append.
Qed.

Lemma dropTrailingSpace_None s r :
  strings.dropTrailingSpace s = None ->
  In r strings.spaceRunes -> strings.HasSuffix s r = false.
Proof.
  unfold strings.dropTrailingSpace.
  destruct (find (strings.HasSuffix s) strings.spaceRunes) eqn:E;
    [discriminate|].
  intros _ Hin. exact (find_none _ _ E r Hin).
Qed.

(** The front trim removes a run of white space and, with fuel for every
    byte, leaves no white space at the front. *)
Lemma trimLeft_spec fuel s :
  (exists l, s = l ++ strings.trimLeft fuel s /\ whitespace l)
  /\ ((String.length s <= fuel)%nat ->
      strings.dropLeadingSpace (strings.trimLeft fuel s) = None).
Proof.
  revert s; induction fuel as [|fuel IH]; intros s; simpl.
  - split; [exists ""; split; [reflexivity | constructor]|].
    intros H. destruct s; [reflexivity | simpl in H; lia].
  - destruct (strings.dropLeadingSpace s) as [s'|] eqn:E.
    + destruct (dropLeadingSpace_Some _ _ E) as (r & Hr & ->).
      destruct (IH s') as [(l & Hl & Hws) Hfuel]. split.
      * exists (r ++ l). rewrite append_assoc, <- Hl.
        split; [reflexivity|]. now constructor.
      * intros Hlen. apply Hfuel. rewrite length_append in Hlen.
        pose proof (spaceRunes_nonempty r Hr). lia.
    + split; [exists ""; split; [reflexivity | constructor] | intros _; exact E].
Qed.

Lemma trimRight_spec fuel s :
  (exists r, s = strings.trimRight fuel s ++ r /\ whitespace r)
  /\ ((String.length s <= fuel)%nat ->
      strings.dropTrailingSpace (strings.trimRight fuel s) = None).
Proof.
  revert s; induction fuel as [|fuel IH]; intros s; simpl.
  - split; [exists ""; split; [now rewrite append_empty_r | constructor]|].
    intros H. destruct s; [reflexivity | simpl in H; lia].
  - destruct (strings.dropTrailingSpace s) as [s'|] eqn:E.
    + destruct (dropTrailingSpace_Some _ _ E) as (x & Hx & ->).
      destruct (IH s') as [(r & Hr & Hws) Hfuel]. split.
      * exists (r ++ x). rewrite <- append_assoc, <- Hr.
        split; [reflexivity|].
        apply whitespace_app; [exact Hws | now apply whitespace_rune].
      * intros Hlen. apply Hfuel. rewrite length_append in Hlen.
        pose proof (spaceRunes_nonempty x Hx). lia.
    + split; [exists ""; split; [now rewrite append_empty_r | constructor]
             | intros _; exact E].
Qed.

(** [strings.TrimSpace] returns its argument without the white space at
    its two ends. *)
Lemma TrimSpace_trimmedOf s : trimmedOf s (strings.TrimSpace s).
Proof.
  unfold strings.TrimSpace, strings.TrimLeftSpace, strings.TrimRightSpace.
  set (t := strings.trimLeft (String.length s) s).
  destruct (trimLeft_spec (String.length s) s) as [(l & Hl & Hwl) Hnl].
  destruct (trimRight_spec (String.length t) t) as [(r & Hr & Hwr) Hnr].
  fold t in Hl, Hnl. repeat split.
  - exists l, r. split; [|split; assumption]. now rewrite <- Hr.
  - intros x Hx.
    destruct (strings.HasPrefix (strings.trimRight (String.length t) t) x)
      eqn:E; [|reflexivity].
    apply HasPrefix_iff in E as [b Hb].
    assert (Ht : strings.HasPrefix t x = true).
    { apply HasPrefix_iff. exists (b ++ r).
      now rewrite <- append_assoc, <- Hb. }
    rewrite (dropLeadingSpace_None t x (Hnl (Nat.le_refl _)) Hx) in Ht.
    discriminate.
  - intros x Hx.
    apply (dropTrailingSpace_None _ x (Hnr (Nat.le_refl _)) Hx).
Qed.

End Trimming.

(** ** The parser *)

Section Parser.

Variable env : Env.

(** The four ways through [parseMarkdownFile]. *)
Lemma parseMarkdownFile_cases content :
  parseMarkdownFile env content =
    if strings.HasPrefix content "---" then
      match strings.index_from (drop 3 content) "---" with
      | None => Err errInvalidFrontmatter
      | Some i =>
          match decode env (strings.TrimSpace (take i (drop 3 content))) with
          | (_, Some detail) => Err (errParsingFrontmatter detail)
          | (stores, None) =>
              Ok (postOf env stores
                    (strings.TrimSpace (drop (i + 3) (drop 3 content))))
          end
      end
    else Err errNoFrontmatter.
Proof.
  unfold parseMarkdownFile.
  destruct (strings.HasPrefix content "---"); [|reflexivity].
  cbn [negb]. rewrite SplitN_2 by discriminate.
  destruct (strings.index_from (drop 3 content) "---") as [i|]; [|reflexivity].
  change (String.length "---") with 3%nat.
  unfold yaml_Unmarshal, postOf.
  destruct (decode env (strings.TrimSpace (take i (drop 3 content))))
    as [stores [detail|]]; reflexivity.
Qed.

(** A text that opens with three hyphens splits at the next three. *)
Lemma closing_delimiter content i :
  strings.HasPrefix content "---" = true ->
  strings.index_from (drop 3 content) "---" = Some i ->
  content
  = "---" ++ take i (drop 3 content) ++ "---" ++ drop (i + 3) (drop 3 content)
  /\ String.length (take i (drop 3 content)) = i.
Proof.
  intros Hp Hi. destruct (index_from_Some _ _ _ Hi) as (Hle & Hsep & _).
  split; [|now apply length_take].
  rewrite (HasPrefix_inv _ _ Hp) at 1. change (String.length "---") with 3%nat.
  f_equal. rewrite <- (take_drop i (drop 3 content)) at 1. f_equal.
  rewrite drop_plus. exact (HasPrefix_inv _ _ Hsep).
Qed.

Lemma Index_closing fm body :
  strings.Index (fm ++ "---" ++ body) "---" = len fm ->
  strings.index_from (fm ++ "---" ++ body) "---" = Some (String.length fm).
Proof.
  unfold strings.Index, len.
  destruct (strings.index_from (fm ++ "---" ++ body) "---") as [i|];
    intros H; [f_equal|]; lia.
Qed.

(** What the parser returns for a text cut as frontmatter and body. *)
Lemma parseMarkdownFile_split fm body :
  strings.Index (fm ++ "---" ++ body) "---" = len fm ->
  parseMarkdownFile env ("---" ++ fm ++ "---" ++ body) =
    match decode env (strings.TrimSpace fm) with
    | (_, Some detail) => Err (errParsingFrontmatter detail)
    | (stores, None) => Ok (postOf env stores (strings.TrimSpace body))
    end.
Proof.
  intros H. apply Index_closing in H.
  rewrite parseMarkdownFile_cases.
  change (strings.HasPrefix ("---" ++ fm ++ "---" ++ body) "---") with true.
  change (drop 3 ("---" ++ fm ++ "---" ++ body)) with (fm ++ "---" ++ body).
  cbv iota. rewrite H.
  rewrite take_append, drop_plus, drop_append.
  change (drop 3 ("---" ++ body)) with body. reflexivity.
Qed.

(** Fields that no store goes to keep their value. *)
Lemma fold_assign_omits stores : forall m,
  let m' := fold_left assign stores m in
  (omits FTitle stores -> BlogMetadata.Title m' = BlogMetadata.Title m)
  /\ (omits FDate stores -> BlogMetadata.Date m' = BlogMetadata.Date m)
  /\ (omits FAuthor stores -> BlogMetadata.Author m' = BlogMetadata.Author m)
  /\ (omits FDescription stores ->
      BlogMetadata.Description m' = BlogMetadata.Description m)
  /\ (omits FTags stores -> BlogMetadata.Tags m' = BlogMetadata.Tags m)
  /\ (omits FSlug stores -> BlogMetadata.Slug m' = BlogMetadata.Slug m).
Proof.
  unfold omits. induction stores as [|w stores IH]; intros m; simpl.
  - repeat split; reflexivity.
  - destruct (IH (assign m w)) as (H1 & H2 & H3 & H4 & H5 & H6).
    repeat split; intros Hno;
      [ rewrite H1 | rewrite H2 | rewrite H3 | rewrite H4 | rewrite H5
      | rewrite H6 ];
      try (intros Hin; apply Hno; now right);
      destruct m, w; simpl in *; try reflexivity;
      exfalso; apply Hno; now left.
Qed.

(** An error of the deserializer is the parser's error. *)
Lemma parse_deserializer_error fm body stores detail :
  strings.Index (fm ++ "---" ++ body) "---" = len fm ->
  decode env (strings.TrimSpace fm) = (stores, Some detail) ->
  parseMarkdownFile env ("---" ++ fm ++ "---" ++ body)
  = Err (errParsingFrontmatter detail).
Proof.
  intros H Hd. rewrite (parseMarkdownFile_split _ _ H), Hd. reflexivity.
Qed.

(** C3, as the code has it: the parser fails with "no frontmatter found"
    exactly when the text does not begin with the three hyphens [---];
    whether the hyphens make a line of their own is not examined. *)
Theorem parse_no_frontmatter_iff content :
  parseMarkdownFile env content = Err errNoFrontmatter
  <-> strings.HasPrefix content "---" = false.
Proof.
  rewrite parseMarkdownFile_cases.
  destruct (strings.HasPrefix content "---"); [|tauto].
  split; [|discriminate].
  destruct (strings.index_from (drop 3 content) "---"); [|discriminate].
  destruct (decode env _) as [stores [detail|]]; discriminate.
Qed.

(** C7: a text that begins with the opening delimiter and has no further
    occurrence of three hyphens fails with "invalid frontmatter format". *)
Theorem parse_no_closing_delimiter content :
  strings.HasPrefix content "---" = true ->
  ~ occurs "---" (drop 3 content) ->
  parseMarkdownFile env content = Err errInvalidFrontmatter.
Proof.
  intros Hp Hno. rewrite parseMarkdownFile_cases, Hp.
  apply index_from_None_iff in Hno. now rewrite Hno.
Qed.

(** C6: on every accepted text the [Content] of the post is the text
    after the closing delimiter, up to the end of the file, without the
    white space at its two ends.  The closing delimiter is the first
    [---] after the opening one; the text is cut there once, so the body
    holds whatever follows, further delimiters included. *)
Theorem parse_rawBody content post :
  parseMarkdownFile env content = Ok post ->
  exists fm body,
    content = "---" ++ fm ++ "---" ++ body
    /\ strings.Index (fm ++ "---" ++ body) "---" = len fm
    /\ BlogPost.Content post = strings.TrimSpace body
    /\ trimmedOf body (BlogPost.Content post).
Proof.
  rewrite parseMarkdownFile_cases.
  destruct (strings.HasPrefix content "---") eqn:Hp; [|discriminate].
  destruct (strings.index_from (drop 3 content) "---") as [i|] eqn:Hi;
    [|discriminate].
  destruct (closing_delimiter _ _ Hp Hi) as [Hcut Hlen].
  destruct (decode env _) as [stores [detail|]]; [discriminate|].
  intros [= <-].
  exists (take i (drop 3 content)), (drop (i + 3) (drop 3 content)).
  split; [exact Hcut|]. split; [|split].
  - assert (Hrest : drop 3 content
                    = take i (drop 3 content) ++ "---"
                        ++ drop (i + 3) (drop 3 content)).
    { rewrite Hcut at 1. reflexivity. }
    rewrite <- Hrest. unfold strings.Index, len. now rewrite Hi, Hlen.
  - reflexivity.
  - apply TrimSpace_trimmedOf.
Qed.

(** C9: when the metadata block deserializes without error, the parser
    succeeds, and every field that the block omits has the zero value of
    its type in the post. *)
Theorem parse_missing_fields_default fm body stores :
  strings.Index (fm ++ "---" ++ body) "---" = len fm ->
  decode env (strings.TrimSpace fm) = (stores, None) ->
  exists post,
    parseMarkdownFile env ("---" ++ fm ++ "---" ++ body) = Ok post
    /\ (omits FTitle stores -> BlogPost.Title post = "")
    /\ (omits FDate stores -> BlogPost.Date post = zeroTime)
    /\ (omits FAuthor stores -> BlogPost.Author post = "")
    /\ (omits FDescription stores -> BlogPost.Description post = "")
    /\ (omits FTags stores -> BlogPost.Tags post = [])
    /\ (omits FSlug stores -> BlogPost.Slug post = "").
Proof.
  intros H Hd. exists (postOf env stores (strings.TrimSpace body)).
  rewrite (parseMarkdownFile_split _ _ H), Hd.
  split; [reflexivity|].
  exact (fold_assign_omits stores BlogMetadata.zero).
Qed.

End Parser.

(** ** The content loader *)

Section Loader.

Variable env : Env.

Implicit Types files before after : list DirEntry.
Implicit Types tr : list event.

(** One round of the loop of [getBlogPost]. *)
Lemma getBlogPost_loop_step slug file files tr :
  getBlogPost_loop env slug (file :: files) tr =
    if strings.HasSuffix (Name file) ".md" then
      let tr' := (tr ++ [EvReadFile (filepath_Join contentDir (Name file))])%list in
      match entryPost env file with
      | Some post =>
          if String.eqb (BlogPost.Slug post) slug then (Some post, tr')
          else getBlogPost_loop env slug files tr'
      | None => getBlogPost_loop env slug files tr'
      end
    else getBlogPost_loop env slug files tr.
Proof.
  unfold entryPost. cbn [getBlogPost_loop].
  destruct (strings.HasSuffix (Name file) ".md"); [|reflexivity].
  cbn [negb]. cbv [bind os_ReadFile emit ret os_result].
  destruct (ReadFile env (filepath_Join contentDir (Name file)))
    as [content|op errno]; [|reflexivity].
  destruct (parseMarkdownFile env content) as [post|err]; [|reflexivity].
  destruct (String.eqb (BlogPost.Slug post) slug); reflexivity.
Qed.

Lemma readPaths_cons file files :
  readPaths (file :: files) =
    if strings.HasSuffix (Name file) ".md"
    then filepath_Join contentDir (Name file) :: readPaths files
    else readPaths files.
Proof.
  unfold readPaths. cbn [filter].
  destruct (strings.HasSuffix (Name file) ".md"); reflexivity.
Qed.

(** A scan that finds nothing reads every Markdown file of the listing. *)
Lemma getBlogPost_loop_miss slug files :
  noMatch env slug files ->
  forall tr,
    getBlogPost_loop env slug files tr
    = (None, (tr ++ map EvReadFile (readPaths files))%list).
Proof.
  induction files as [|file files IH]; intros Hno tr.
  - simpl. unfold ret. now rewrite app_nil_r.
  - assert (Hrest : noMatch env slug files).
    { intros f p Hin. apply Hno. now right. }
    rewrite getBlogPost_loop_step, readPaths_cons.
    destruct (strings.HasSuffix (Name file) ".md"); [|now apply IH].
    cbv zeta. cbn [map]. 
    destruct (entryPost env file) as [post|] eqn:E.
    + destruct (String.eqb_spec (BlogPost.Slug post) slug) as [Heq|_].
      * exfalso. apply (Hno file post); [now left | exact E | exact Heq].
      * rewrite (IH Hrest). now rewrite <- app_assoc.
    + rewrite (IH Hrest). now rewrite <- app_assoc.
Qed.

(** A scan stops at the first entry whose post has the slug: the files
    of the entries behind it are not read. *)
Lemma getBlogPost_loop_hit slug before file after post :
  noMatch env slug before ->
  entryPost env file = Some post ->
  BlogPost.Slug post = slug ->
  forall tr,
    getBlogPost_loop env slug (before ++ file :: after) tr
    = (Some post, (tr ++ map EvReadFile (readPaths (before ++ [file])))%list).
Proof.
  intros Hno Hfile Hslug.
  induction before as [|f before IH]; intros tr.
  - cbn [app]. rewrite getBlogPost_loop_step, readPaths_cons.
    assert (Hmd : strings.HasSuffix (Name file) ".md" = true).
    { unfold entryPost in Hfile.
      destruct (strings.HasSuffix (Name file) ".md");
        [reflexivity | discriminate]. }
    rewrite Hmd, Hfile. cbv zeta.
    apply String.eqb_eq in Hslug. now rewrite Hslug.
  - assert (Hrest : noMatch env slug before).
    { intros g p Hin. apply Hno. now right. }
    cbn [app]. rewrite getBlogPost_loop_step, readPaths_cons.
    destruct (strings.HasSuffix (Name f) ".md"); [|now apply IH].
    cbv zeta. cbn [map].
    destruct (entryPost env f) as [p|] eqn:E.
    + destruct (String.eqb_spec (BlogPost.Slug p) slug) as [Heq|_].
      * exfalso. apply (Hno f p); [now left | exact E | exact Heq].
      * rewrite (IH Hrest). now rewrite <- app_assoc.
    + rewrite (IH Hrest). now rewrite <- app_assoc.
Qed.

(** The loop of [getAllBlogPosts] appends the posts of the listing. *)
Lemma getAllBlogPosts_loop_posts files : forall posts tr,
  fst (getAllBlogPosts_loop env files posts tr)
  = (posts ++ listingPosts env files)%list.
Proof.
  induction files as [|file files IH]; intros posts tr.
  - simpl. now rewrite app_nil_r.
  - cbn [getAllBlogPosts_loop listingPosts flat_map]. unfold entryPost.
    fold (listingPosts env files).
    destruct (strings.HasSuffix (Name file) ".md"); [|apply IH].
    cbn [negb]. cbv [bind os_ReadFile log_Printf emit ret os_result].
    destruct (ReadFile env (filepath_Join contentDir (Name file)))
      as [content|op errno]; [|apply IH].
    destruct (parseMarkdownFile env content) as [post|err]; [|apply IH].
    rewrite IH. now rewrite <- app_assoc.
Qed.

(** [getAllBlogPosts] on a directory that exists and lists. *)
Lemma getAllBlogPosts_listing files :
  (forall op, Stat env contentDir <> Failed op ENOENT) ->
  ReadDir env contentDir = Done files ->
  fst (run (getAllBlogPosts env)) = Ok (listingPosts env files).
Proof.
  intros Hstat Hdir. unfold run, getAllBlogPosts.
  cbv [bind os_Stat os_ReadDir emit ret os_result]. rewrite Hdir.
  assert (Hloop : forall tr,
            fst (let (posts', tr') := getAllBlogPosts_loop env files [] tr in
                 (Ok posts', tr'))
            = Ok (listingPosts env files)).
  { intros tr. pose proof (getAllBlogPosts_loop_posts files [] tr) as H.
    destruct (getAllBlogPosts_loop env files [] tr) as [posts tr'].
    simpl in *. now rewrite H. }
  destruct (Stat env contentDir) as [u|op errno] eqn:E.
  - cbn [os_IsNotExist]. apply Hloop.
  - cbn [os_IsNotExist]. destruct (Z.eqb_spec errno ENOENT) as [->|_].
    + now destruct (Hstat op).
    + apply Hloop.
Qed.

(** The scan returns the first post of the listing that has the slug. *)
Lemma getBlogPost_loop_result slug files : forall tr,
  fst (getBlogPost_loop env slug files tr)
  = find (fun post => String.eqb (BlogPost.Slug post) slug)
         (listingPosts env files).
Proof.
  induction files as [|file files IH]; intros tr; [reflexivity|].
  rewrite getBlogPost_loop_step. unfold listingPosts. cbn [flat_map].
  fold (listingPosts env files).
  destruct (strings.HasSuffix (Name file) ".md") eqn:Hmd.
  - cbv zeta. destruct (entryPost env file) as [post|]; [|apply IH].
    cbn [app find].
    destruct (String.eqb (BlogPost.Slug post) slug); [reflexivity | apply IH].
  - assert (Hnone : entryPost env file = None).
    { unfold entryPost. now rewrite Hmd. }
    rewrite Hnone. apply IH.
Qed.

Lemma In_listingPosts post files :
  In post (listingPosts env files)
  <-> exists file, In file files /\ entryPost env file = Some post.
Proof.
  unfold listingPosts. rewrite in_flat_map. split.
  - intros (file & Hin & Hpost). exists file. split; [exact Hin|].
    destruct (entryPost env file) as [q|]; [|contradiction].
    destruct Hpost as [->|[]]. reflexivity.
  - intros (file & Hin & Hpost). exists file. split; [exact Hin|].
    rewrite Hpost. now left.
Qed.

Lemma find_None_noMatch slug files :
  find (fun post => String.eqb (BlogPost.Slug post) slug)
       (listingPosts env files) = None
  <-> noMatch env slug files.
Proof.
  split.
  - intros H file post Hin Hpost Hslug.
    assert (Hp : In post (listingPosts env files)).
    { apply In_listingPosts. now exists file. }
    pose proof (find_none _ _ H post Hp) as Hne. cbv beta in Hne.
    apply String.eqb_neq in Hne. contradiction.
  - intros Hno.
    destruct (find _ (listingPosts env files)) as [post|] eqn:E;
      [|reflexivity].
    apply find_some in E as [Hp Heq]. apply String.eqb_eq in Heq.
    apply In_listingPosts in Hp as (file & Hin & Hpost).
    now destruct (Hno file post Hin Hpost).
Qed.

(** The two errors of [getBlogPost] and their causes: the error of a
    failed directory read, and the "not found" error after a scan without
    a match.  Neither is returned for the other's cause. *)
Lemma getBlogPost_errors slug err :
  fst (run (getBlogPost env slug)) = Err err ->
  (exists op errno,
      ReadDir env contentDir = Failed op errno
      /\ err = PathError op contentDir errno)
  \/ (exists files,
         ReadDir env contentDir = Done files
         /\ noMatch env slug files
         /\ err = errNotFound slug).
Proof.
  unfold run, getBlogPost. cbv [bind os_ReadDir emit ret os_result].
  destruct (ReadDir env contentDir) as [files|op errno].
  - pose proof (getBlogPost_loop_result slug files ([] ++ [EvReadDir contentDir])%list)
      as Hres.
    destruct (getBlogPost_loop env slug files _) as [[post|] tr];
      cbn [fst] in *; [discriminate|].
    intros [= <-]. right. exists files. split; [reflexivity|].
    split; [|reflexivity]. apply find_None_noMatch. now symmetry.
  - cbn [fst]. intros [= <-]. left. now exists op, errno.
Qed.

(** C1: when the directory lists and the scan of all its entries finds no
    post with the slug, [getBlogPost] returns the "not found" error, which
    differs from every error of the directory read, and the route answers
    it with status 404. *)
Theorem getBlogPost_not_found slug files :
  ReadDir env contentDir = Done files ->
  noMatch env slug files ->
  run (getBlogPost env slug)
  = (Err (errNotFound slug),
     EvReadDir contentDir :: map EvReadFile (readPaths files))
  /\ (forall op path errno, errNotFound slug <> PathError op path errno)
  /\ fst (run (blogSlugHandler env slug))
     = SendString 404 "Blog post not found".
Proof.
  intros Hdir Hno.
  assert (Hrun : run (getBlogPost env slug)
                 = (Err (errNotFound slug),
                    EvReadDir contentDir :: map EvReadFile (readPaths files))).
  { unfold run, getBlogPost. cbv [bind os_ReadDir emit ret os_result].
    rewrite Hdir, (getBlogPost_loop_miss slug files Hno). reflexivity. }
  split; [exact Hrun|]. split; [discriminate|].
  unfold run, blogSlugHandler, bind in *. now rewrite Hrun.
Qed.

(** C8: [getBlogPost] returns the post of the first entry, in the order
    of the listing, whose post has the slug; it reads the files one by
    one up to that entry and none behind it, whatever they declare. *)
Theorem getBlogPost_first_match slug before file after post :
  ReadDir env contentDir = Done (before ++ file :: after)%list ->
  noMatch env slug before ->
  entryPost env file = Some post ->
  BlogPost.Slug post = slug ->
  run (getBlogPost env slug)
  = (Ok post,
     EvReadDir contentDir :: map EvReadFile (readPaths (before ++ [file])%list)).
Proof.
  intros Hdir Hno Hfile Hslug.
  unfold run, getBlogPost. cbv [bind os_ReadDir emit ret os_result].
  rewrite Hdir.
  rewrite (getBlogPost_loop_hit slug before file after post Hno Hfile Hslug).
  reflexivity.
Qed.

(** C10: when the content directory does not exist, [getBlogPost] returns
    the error of the directory read, which is not the "not found" error,
    whereas [getAllBlogPosts] returns the empty list and no error. *)
Theorem getBlogPost_missing_directory slug op op' :
  ReadDir env contentDir = Failed op ENOENT ->
  Stat env contentDir = Failed op' ENOENT ->
  fst (run (getBlogPost env slug)) = Err (PathError op contentDir ENOENT)
  /\ PathError op contentDir ENOENT <> errNotFound slug
  /\ fst (run (getAllBlogPosts env)) = Ok [].
Proof.
  intros Hdir Hstat. repeat split.
  - unfold run, getBlogPost. cbv [bind os_ReadDir emit ret os_result].
    now rewrite Hdir.
  - discriminate.
  - unfold run, getAllBlogPosts. cbv [bind os_Stat emit ret os_result].
    now rewrite Hstat.
Qed.

(** C4: when the content directory does not exist, [getAllBlogPosts]
    returns the empty list and no error; the directory is not read. *)
Theorem getAllBlogPosts_missing_directory op :
  Stat env contentDir = Failed op ENOENT ->
  run (getAllBlogPosts env) = (Ok [], [EvStat contentDir]).
Proof.
  intros Hstat.
  unfold run, getAllBlogPosts. cbv [bind os_Stat emit ret os_result].
  now rewrite Hstat.
Qed.

(** C5: [getAllBlogPosts] returns no error on a directory that lists: its
    result is the posts of the entries that read and parse, the others
    are passed over.  With one valid Markdown file and one whose
    frontmatter is malformed, in either order, the result is the one
    post of the valid file. *)
Theorem getAllBlogPosts_skips_failures files :
  (forall op, Stat env contentDir <> Failed op ENOENT) ->
  ReadDir env contentDir = Done files ->
  fst (run (getAllBlogPosts env)) = Ok (listingPosts env files)
  /\ forall valid bad post content err,
       files = [valid; bad] \/ files = [bad; valid] ->
       entryPost env valid = Some post ->
       strings.HasSuffix (Name bad) ".md" = true ->
       ReadFile env (filepath_Join contentDir (Name bad)) = Done content ->
       parseMarkdownFile env content = Err err ->
       fst (run (getAllBlogPosts env)) = Ok [post].
Proof.
  intros Hstat Hdir.
  pose proof (getAllBlogPosts_listing files Hstat Hdir) as Hlist.
  split; [exact Hlist|].
  intros valid bad post content err Hfiles Hvalid Hmd Hread Hparse.
  assert (Hbad : entryPost env bad = None).
  { unfold entryPost. now rewrite Hmd, Hread, Hparse. }
  rewrite Hlist. f_equal.
  destruct Hfiles as [-> | ->]; unfold listingPosts; cbn [flat_map];
    now rewrite Hvalid, Hbad.
Qed.

End Loader.

(** ** The properties on the sample content directory *)

(** [noMatch], decided on a listing. *)
Lemma noMatch_check env slug files :
  forallb (fun file => match entryPost env file with
                       | Some post => negb (String.eqb (BlogPost.Slug post) slug)
                       | None => true
                       end) files = true ->
  noMatch env slug files.
Proof.
  intros H file post Hin Hpost Hslug.
  rewrite forallb_forall in H. specialize (H file Hin).
  rewrite Hpost in H. apply String.eqb_eq in Hslug.
  rewrite Hslug in H. discriminate.
Qed.

Lemma getBlogPost_not_found_sample :
  run (getBlogPost sampleEnv "nope")
  = (Err (errNotFound "nope"),
     EvReadDir contentDir :: map EvReadFile (readPaths sampleFiles))
  /\ (forall op path errno, errNotFound "nope" <> PathError op path errno)
  /\ fst (run (blogSlugHandler sampleEnv "nope"))
     = SendString 404 "Blog post not found".
Proof.
  apply (getBlogPost_not_found sampleEnv "nope" sampleFiles).
  - reflexivity.
  - apply noMatch_check. vm_compute. reflexivity.
Defined.

(** A text of four hyphens begins with no line of three hyphens and yet
    is not refused as without frontmatter; a text whose three hyphens are
    followed by the metadata on the same line is accepted. *)
Lemma parse_prefix_without_delimiter_line :
  (beginsWithDelimiterLine "----" = false
   /\ parseMarkdownFile sampleEnv "----" = Err errInvalidFrontmatter
   /\ parseMarkdownFile sampleEnv "----" <> Err errNoFrontmatter)
  /\ (beginsWithDelimiterLine "---slug: other---Other." = false
      /\ parseMarkdownFile sampleEnv "---slug: other---Other."
         = Ok (postOf sampleEnv [SetSlug "other"] "Other.")).
Proof.
  repeat split; try (vm_compute; reflexivity).
  vm_compute. discriminate.
Qed.

Lemma parse_no_closing_delimiter_sample :
  strings.HasPrefix brokenFile "---" = true
  /\ ~ occurs "---" (drop 3 brokenFile)
  /\ parseMarkdownFile sampleEnv brokenFile = Err errInvalidFrontmatter.
Proof.
  assert (Hno : ~ occurs "---" (drop 3 brokenFile)).
  { apply Index_absent_iff. vm_compute. reflexivity. }
  split; [reflexivity|]. split; [exact Hno|].
  apply (parse_no_closing_delimiter sampleEnv brokenFile);
    [reflexivity | exact Hno].
Defined.

Lemma parse_rawBody_sample :
  exists fm body,
    helloFile = "---" ++ fm ++ "---" ++ body
    /\ strings.Index (fm ++ "---" ++ body) "---" = len fm
    /\ ("# Hi" ++ LF ++ "---" ++ LF ++ "Some **bold** text.")
       = strings.TrimSpace body
    /\ trimmedOf body ("# Hi" ++ LF ++ "---" ++ LF ++ "Some **bold** text.").
Proof.
  apply (parse_rawBody sampleEnv helloFile
           (postOf sampleEnv [SetTitle "Hello"; SetSlug "hello"]
              ("# Hi" ++ LF ++ "---" ++ LF ++ "Some **bold** text."))).
  vm_compute. reflexivity.
Defined.

Lemma parse_missing_fields_default_sample :
  exists post,
    parseMarkdownFile sampleEnv otherFile = Ok post
    /\ (omits FTitle [SetSlug "other"] -> BlogPost.Title post = "")
    /\ (omits FDate [SetSlug "other"] -> BlogPost.Date post = zeroTime)
    /\ (omits FAuthor [SetSlug "other"] -> BlogPost.Author post = "")
    /\ (omits FDescription [SetSlug "other"] -> BlogPost.Description post = "")
    /\ (omits FTags [SetSlug "other"] -> BlogPost.Tags post = [])
    /\ (omits FSlug [SetSlug "other"] -> BlogPost.Slug post = "").
Proof.
  apply (parse_missing_fields_default sampleEnv
           (LF ++ "slug: other" ++ LF) (LF ++ "Other." ++ LF)
           [SetSlug "other"]).
  - vm_compute. reflexivity.
  - vm_compute. reflexivity.
Defined.

Lemma getBlogPost_first_match_sample :
  run (getBlogPost sampleEnv "other")
  = (Ok (postOf sampleEnv [SetSlug "other"] "First."),
     [EvReadDir "./content"; EvReadFile "content/broken.md";
      EvReadFile "content/first.md"]).
Proof.
  apply (getBlogPost_first_match sampleEnv "other"
           [mkDirEntry "broken.md"] (mkDirEntry "first.md")
           (map mkDirEntry ["hello.md"; "notes.txt"; "other.md"; "secret.md"])
           (postOf sampleEnv [SetSlug "other"] "First.")).
  - reflexivity.
  - apply noMatch_check. vm_compute. reflexivity.
  - vm_compute. reflexivity.
  - reflexivity.
Defined.

Lemma getBlogPost_missing_directory_sample :
  fst (run (getBlogPost emptyEnv "hello"))
  = Err (PathError "open" contentDir ENOENT)
  /\ PathError "open" contentDir ENOENT <> errNotFound "hello"
  /\ fst (run (getAllBlogPosts emptyEnv)) = Ok [].
Proof.
  apply (getBlogPost_missing_directory emptyEnv "hello" "open" "stat");
    reflexivity.
Defined.

Lemma getAllBlogPosts_missing_directory_sample :
  run (getAllBlogPosts emptyEnv) = (Ok [], [EvStat contentDir]).
Proof.
  apply (getAllBlogPosts_missing_directory emptyEnv "stat"). reflexivity.
Defined.

Lemma getAllBlogPosts_skips_failures_sample :
  fst (run (getAllBlogPosts twoFilesEnv))
  = Ok [postOf twoFilesEnv [SetTitle "Hello"; SetSlug "hello"]
          ("# Hi" ++ LF ++ "---" ++ LF ++ "Some **bold** text.")].
Proof.
  destruct (getAllBlogPosts_skips_failures twoFilesEnv
              (map mkDirEntry ["broken.md"; "hello.md"])) as [_ H].
  - intros op Hstat. discriminate Hstat.
  - reflexivity.
  - apply (H (mkDirEntry "hello.md") (mkDirEntry "broken.md") _ brokenFile
             errInvalidFrontmatter).
    + right. reflexivity.
    + vm_compute. reflexivity.
    + reflexivity.
    + reflexivity.
    + vm_compute. reflexivity.
Defined.

(** * Further properties of the loader and its routes *)

Section LoaderRuns.

Variable env : Env.

Implicit Types files : list DirEntry.
Implicit Types tr : list event.

(** The loop of [getAllBlogPosts], result and trace. *)
Lemma getAllBlogPosts_loop_run files : forall posts tr,
  getAllBlogPosts_loop env files posts tr
  = ((posts ++ listingPosts env files)%list,
     (tr ++ flat_map (entryEvents env) files)%list).
Proof.
  induction files as [|file files IH]; intros posts tr.
  - simpl. unfold ret. now rewrite !app_nil_r.
  - cbn [getAllBlogPosts_loop listingPosts flat_map].
    unfold entryPost, entryEvents. fold (listingPosts env files).
    destruct (strings.HasSuffix (Name file) ".md"); [|apply IH].
    cbn [negb]. cbv [bind os_ReadFile log_Printf emit ret os_result].
    destruct (ReadFile env (filepath_Join contentDir (Name file)))
      as [content|op errno].
    + destruct (parseMarkdownFile env content) as [post|err];
        rewrite IH; cbn [app]; now rewrite <- !app_assoc.
    + rewrite IH. cbn [app]. now rewrite <- !app_assoc.
Qed.

(** The three runs of [getAllBlogPosts]. *)
Lemma getAllBlogPosts_run :
  run (getAllBlogPosts env) =
    if statMissing env then (Ok [], [EvStat contentDir])
    else match ReadDir env contentDir with
         | Failed op errno =>
             (Err (PathError op contentDir errno),
              [EvStat contentDir; EvReadDir contentDir])
         | Done files =>
             (Ok (listingPosts env files),
              EvStat contentDir :: EvReadDir contentDir
                :: flat_map (entryEvents env) files)
         end.
Proof.
  unfold run, getAllBlogPosts, statMissing.
  cbv [bind os_Stat os_ReadDir emit ret os_result].
  destruct (Stat env contentDir) as [u|op errno]; cbn [os_IsNotExist];
    [|destruct (errno =? ENOENT); [reflexivity|]];
    (destruct (ReadDir env contentDir) as [files|op' errno'];
     [rewrite getAllBlogPosts_loop_run; reflexivity | reflexivity]).
Qed.

Lemma statMissing_false_iff :
  statMissing env = false
  <-> forall op, Stat env contentDir <> Failed op ENOENT.
Proof.
  unfold statMissing. destruct (Stat env contentDir) as [u|op errno].
  - split; [intros _ op H; discriminate H | reflexivity].
  - split.
    + intros H op' [= -> ->]. now rewrite Z.eqb_refl in H.
    + intros H. apply Z.eqb_neq. intros ->. now apply (H op).
Qed.


(** The result of [getBlogPost]. *)
Lemma getBlogPost_result slug :
  fst (run (getBlogPost env slug)) =
    match ReadDir env contentDir with
    | Failed op errno => Err (PathError op contentDir errno)
    | Done files =>
        match find (fun post => String.eqb (BlogPost.Slug post) slug)
                   (listingPosts env files) with
        | Some post => Ok post
        | None => Err (errNotFound slug)
        end
    end.
Proof.
  unfold run, getBlogPost. cbv [bind os_ReadDir emit ret os_result].
  destruct (ReadDir env contentDir) as [files|op errno]; [|reflexivity].
  rewrite <- (getBlogPost_loop_result env slug files
                ([] ++ [EvReadDir contentDir])%list).
  destruct (getBlogPost_loop env slug files _) as [[post|] tr]; reflexivity.
Qed.

Lemma readsOf_entryEvents files :
  readsOf (flat_map (entryEvents env) files) = readPaths files.
Proof.
  induction files as [|file files IH]; [reflexivity|].
  cbn [flat_map]. unfold readsOf in *. rewrite flat_map_app, IH.
  rewrite readPaths_cons. unfold entryEvents.
  destruct (strings.HasSuffix (Name file) ".md"); [|reflexivity].
  cbv zeta. cbn [flat_map app].
  destruct (ReadFile env (filepath_Join contentDir (Name file)))
    as [content|op errno]; [|reflexivity].
  destruct (parseMarkdownFile env content); reflexivity.
Qed.

Lemma entry_post_or_log file :
  (length (match entryPost env file with
           | Some post => [post]
           | None => []
           end)
   + length (logsOf (entryEvents env file)))%nat
  = if strings.HasSuffix (Name file) ".md" then 1%nat else 0%nat.
Proof.
  unfold entryPost, entryEvents, logsOf.
  destruct (strings.HasSuffix (Name file) ".md"); [|reflexivity].
  cbv zeta.
  destruct (ReadFile env (filepath_Join contentDir (Name file)))
    as [content|op errno]; [|reflexivity].
  destruct (parseMarkdownFile env content); reflexivity.
Qed.

Lemma posts_and_logs files :
  (length (listingPosts env files)
   + length (logsOf (flat_map (entryEvents env) files)))%nat
  = length (readPaths files).
Proof.
  induction files as [|file files IH]; [reflexivity|].
  change (listingPosts env (file :: files))
    with (match entryPost env file with
          | Some post => [post]
          | None => []
          end ++ listingPosts env files)%list.
  cbn [flat_map]. unfold logsOf at 1. rewrite flat_map_app.
  fold (logsOf (entryEvents env file)).
  fold (logsOf (flat_map (entryEvents env) files)).
  rewrite !length_app, readPaths_cons.
  pose proof (entry_post_or_log file) as He.
  destruct (strings.HasSuffix (Name file) ".md"); cbn [length]; lia.
Qed.

(** X6: [getAllBlogPosts] returns an error exactly when [os.Stat] does
    not report the directory missing and [os.ReadDir] fails; the error is
    the one of the directory read.  No failure of a file is ever its
    error. *)
Theorem getAllBlogPosts_error_iff err :
  fst (run (getAllBlogPosts env)) = Err err
  <-> (forall op, Stat env contentDir <> Failed op ENOENT)
      /\ exists op errno,
           ReadDir env contentDir = Failed op errno
           /\ err = PathError op contentDir errno.
Proof.
  rewrite getAllBlogPosts_run, <- statMissing_false_iff.
  destruct (statMissing env).
  - cbn [fst]. split; [discriminate | intros [H _]; discriminate H].
  - destruct (ReadDir env contentDir) as [files|op errno]; cbn [fst].
    + split; [discriminate | intros (_ & op & errno & H & _); discriminate H].
    + split.
      * intros [= <-]. split; [reflexivity|]. now exists op, errno.
      * intros (_ & op' & errno' & [= <- <-] & ->). reflexivity.
Qed.

(** X7: on a directory that lists, [getAllBlogPosts] reads the files
    with the Markdown extension, each once and in the order of the
    listing, and no other file; every one of them ends as a post of the
    result or as one log line. *)
Theorem getAllBlogPosts_reads_and_logs files :
  (forall op, Stat env contentDir <> Failed op ENOENT) ->
  ReadDir env contentDir = Done files ->
  exists posts,
    fst (run (getAllBlogPosts env)) = Ok posts
    /\ readsOf (snd (run (getAllBlogPosts env))) = readPaths files
    /\ (length posts + length (logsOf (snd (run (getAllBlogPosts env)))))%nat
       = length (readPaths files).
Proof.
  intros Hstat Hdir. apply statMissing_false_iff in Hstat.
  rewrite getAllBlogPosts_run, Hstat, Hdir. cbn [fst snd].
  exists (listingPosts env files). split; [reflexivity|].
  split.
  - change (readsOf (flat_map (entryEvents env) files) = readPaths files).
    apply readsOf_entryEvents.
  - change ((length (listingPosts env files)
             + length (logsOf (flat_map (entryEvents env) files)))%nat
            = length (readPaths files)).
    apply posts_and_logs.
Qed.

(** X8: the log lines of [getAllBlogPosts] are those of the Markdown
    files that fail: a line "Error reading file" with the path and the
    error of the read, or a line "Error parsing file" with the path and
    the error of the parser. *)
Theorem getAllBlogPosts_log_iff files format args :
  (forall op, Stat env contentDir <> Failed op ENOENT) ->
  ReadDir env contentDir = Done files ->
  In (format, args) (logsOf (snd (run (getAllBlogPosts env))))
  <-> exists file,
        In file files
        /\ strings.HasSuffix (Name file) ".md" = true
        /\ let filePath := filepath_Join contentDir (Name file) in
           (exists op errno,
               ReadFile env filePath = Failed op errno
               /\ format = "Error reading file %s: %v"
               /\ args = [ArgString filePath;
                          ArgError (PathError op filePath errno)])
           \/ (exists content err,
                  ReadFile env filePath = Done content
                  /\ parseMarkdownFile env content = Err err
                  /\ format = "Error parsing file %s: %v"
                  /\ args = [ArgString filePath; ArgError err]).
Proof.
  intros Hstat Hdir. apply statMissing_false_iff in Hstat.
  rewrite getAllBlogPosts_run, Hstat, Hdir. cbn [snd].
  change (logsOf (EvStat contentDir :: EvReadDir contentDir
                    :: flat_map (entryEvents env) files))
    with (logsOf (flat_map (entryEvents env) files)).
  unfold logsOf. rewrite in_flat_map. split.
  - intros (e & He & Hlog). apply in_flat_map in He as (file & Hin & He).
    exists file. split; [exact Hin|]. unfold entryEvents in He.
    destruct (strings.HasSuffix (Name file) ".md"); [|contradiction].
    split; [reflexivity|]. cbv zeta in *.
    destruct He as [<-|He]; [contradiction|].
    destruct (ReadFile env (filepath_Join contentDir (Name file)))
      as [content|op errno].
    + destruct (parseMarkdownFile env content) as [post|err] eqn:Hparse;
        [contradiction|].
      destruct He as [<-|[]]. destruct Hlog as [[= <- <-]|[]].
      right. now exists content, err.
    + destruct He as [<-|[]]. destruct Hlog as [[= <- <-]|[]].
      left. now exists op, errno.
  - intros (file & Hin & Hmd & Hcase). cbv zeta in Hcase.
    destruct Hcase as [(op & errno & Hread & -> & ->)
                      |(content & err & Hread & Hparse & -> & ->)].
    + eexists. split.
      * apply in_flat_map. exists file. split; [exact Hin|].
        unfold entryEvents. rewrite Hmd, Hread. right. left. reflexivity.
      * left. reflexivity.
    + eexists. split.
      * apply in_flat_map. exists file. split; [exact Hin|].
        unfold entryEvents. rewrite Hmd, Hread, Hparse.
        right. left. reflexivity.
      * left. reflexivity.
Qed.

(** X9: on a directory that lists, [getBlogPost] returns what a search
    for the first post with the slug finds in the result of
    [getAllBlogPosts], and the "not found" error when it finds none. *)
Theorem getBlogPost_finds_in_listing slug files :
  (forall op, Stat env contentDir <> Failed op ENOENT) ->
  ReadDir env contentDir = Done files ->
  exists posts,
    fst (run (getAllBlogPosts env)) = Ok posts
    /\ fst (run (getBlogPost env slug))
       = match find (fun post => String.eqb (BlogPost.Slug post) slug) posts
         with
         | Some post => Ok post
         | None => Err (errNotFound slug)
         end.
Proof.
  intros Hstat Hdir. apply statMissing_false_iff in Hstat.
  exists (listingPosts env files).
  rewrite getAllBlogPosts_run, Hstat, getBlogPost_result, Hdir.
  split; reflexivity.
Qed.


(** X11: the route [/blog/:slug] answers 404 "Blog post not found" to
    every error of [getBlogPost], the error of a failed directory read
    included; otherwise it renders the template [post] with a post of the
    listing whose slug is the requested one, under the post's title. *)
Theorem blogSlugHandler_response slug :
  (fst (run (blogSlugHandler env slug)) = SendString 404 "Blog post not found"
   /\ exists err, fst (run (getBlogPost env slug)) = Err err)
  \/ (exists post files file,
         fst (run (blogSlugHandler env slug))
         = Render "post" (BlogPost.Title post) post
         /\ BlogPost.Slug post = slug
         /\ ReadDir env contentDir = Done files
         /\ In file files
         /\ entryPost env file = Some post).
Proof.
  assert (Hh : fst (run (blogSlugHandler env slug))
               = match fst (run (getBlogPost env slug)) with
                 | Err _ => SendString 404 "Blog post not found"
                 | Ok post => Render "post" (BlogPost.Title post) post
                 end).
  { unfold run, blogSlugHandler, bind.
    destruct (getBlogPost env slug []) as [[post|err] tr]; reflexivity. }
  rewrite Hh, getBlogPost_result.
  destruct (ReadDir env contentDir) as [files|op errno].
  - destruct (find _ (listingPosts env files)) as [post|] eqn:E.
    + right. apply find_some in E as [Hin Heq].
      apply String.eqb_eq in Heq.
      apply In_listingPosts in Hin as (file & Hfile & Hpost).
      now exists post, files, file.
    + left. split; [reflexivity | now eexists].
  - left. split; [reflexivity | now eexists].
Qed.

(** X12: the route [/blog] answers 500 "Error loading blog posts"
    exactly when the directory is not reported missing and its read
    fails; when the directory is missing it renders the template [blog]
    with no post, and otherwise with the posts of the listing. *)
Theorem blogHandler_response :
  fst (run (blogHandler env)) =
    if statMissing env then RenderList "blog" "All Blog Posts" []
    else match ReadDir env contentDir with
         | Failed _ _ => SendString 500 "Error loading blog posts"
         | Done files =>
             RenderList "blog" "All Blog Posts" (listingPosts env files)
         end.
Proof.
  assert (Hh : fst (run (blogHandler env))
               = match fst (run (getAllBlogPosts env)) with
                 | Err _ => SendString 500 "Error loading blog posts"
                 | Ok posts => RenderList "blog" "All Blog Posts" posts
                 end).
  { unfold run, blogHandler, bind.
    destruct (getAllBlogPosts env []) as [[posts|err] tr]; reflexivity. }
  rewrite Hh, getAllBlogPosts_run.
  destruct (statMissing env); [reflexivity|].
  destruct (ReadDir env contentDir); reflexivity.
Qed.

End LoaderRuns.

(** * Further properties of the parser *)

Section ParserCases.

Variable env : Env.

(** The cut of a text at its two delimiters, from the search of the
    closing one. *)
Lemma closing_delimiter_Index content i :
  strings.HasPrefix content "---" = true ->
  strings.index_from (drop 3 content) "---" = Some i ->
  let fm := take i (drop 3 content) in
  let body := drop (i + 3) (drop 3 content) in
  content = "---" ++ fm ++ "---" ++ body
  /\ strings.Index (fm ++ "---" ++ body) "---" = len fm.
Proof.
  intros Hp Hi fm body.
  destruct (closing_delimiter _ _ Hp Hi) as [Hcut Hlen].
  split; [exact Hcut|].
  assert (Hrest : drop 3 content = fm ++ "---" ++ body).
  { rewrite Hcut at 1. reflexivity. }
  rewrite <- Hrest. unfold strings.Index, len, fm. now rewrite Hi, Hlen.
Qed.

(** X1: the parser fails with "invalid frontmatter format" exactly when the
    text begins with three hyphens and no further three hyphens follow
    them; no other failure carries this error. *)
Theorem parse_invalid_frontmatter_iff content :
  parseMarkdownFile env content = Err errInvalidFrontmatter
  <-> strings.HasPrefix content "---" = true
      /\ ~ occurs "---" (drop 3 content).
Proof.
  rewrite parseMarkdownFile_cases, <- index_from_None_iff.
  destruct (strings.HasPrefix content "---").
  - destruct (strings.index_from (drop 3 content) "---") as [i|].
    + split; [|intros [_ H]; discriminate H].
      destruct (decode env _) as [stores [detail|]]; discriminate.
    + split; [now split | reflexivity].
  - split; [discriminate | intros [H _]; discriminate H].
Qed.

(** X2: the parser accepts exactly the texts that are three hyphens, a
    metadata block, the first further three hyphens and a body, with a
    block that deserializes without error once trimmed.  The post it
    returns holds the fields stored by the deserializer over the zero
    metadata, the trimmed body, and the rendering of the trimmed body. *)
Theorem parse_accepts_iff content post :
  parseMarkdownFile env content = Ok post
  <-> exists fm body stores,
        content = "---" ++ fm ++ "---" ++ body
        /\ strings.Index (fm ++ "---" ++ body) "---" = len fm
        /\ decode env (strings.TrimSpace fm) = (stores, None)
        /\ post = postOf env stores (strings.TrimSpace body).
Proof.
  split.
  - rewrite parseMarkdownFile_cases.
    destruct (strings.HasPrefix content "---") eqn:Hp; [|discriminate].
    destruct (strings.index_from (drop 3 content) "---") as [i|] eqn:Hi;
      [|discriminate].
    destruct (closing_delimiter_Index _ _ Hp Hi) as [Hcut Hidx].
    destruct (decode env _) as [stores [detail|]] eqn:Hd; [discriminate|].
    intros [= <-].
    exists (take i (drop 3 content)), (drop (i + 3) (drop 3 content)), stores.
    repeat split; assumption.
  - intros (fm & body & stores & -> & Hidx & Hd & ->).
    now rewrite (parseMarkdownFile_split env _ _ Hidx), Hd.
Qed.

(** X3: the parser fails with "error parsing frontmatter: " and a detail
    exactly when the text has its two delimiters and the deserializer
    reports that detail on the trimmed metadata block. *)
Theorem parse_deserializer_error_iff content detail :
  parseMarkdownFile env content = Err (errParsingFrontmatter detail)
  <-> exists fm body stores,
        content = "---" ++ fm ++ "---" ++ body
        /\ strings.Index (fm ++ "---" ++ body) "---" = len fm
        /\ decode env (strings.TrimSpace fm) = (stores, Some detail).
Proof.
  split.
  - rewrite parseMarkdownFile_cases.
    destruct (strings.HasPrefix content "---") eqn:Hp; [|discriminate].
    destruct (strings.index_from (drop 3 content) "---") as [i|] eqn:Hi;
      [|discriminate].
    destruct (closing_delimiter_Index _ _ Hp Hi) as [Hcut Hidx].
    destruct (decode env _) as [stores [detail'|]] eqn:Hd; [|discriminate].
    intros [= H]. subst detail'.
    exists (take i (drop 3 content)), (drop (i + 3) (drop 3 content)), stores.
    repeat split; assumption.
  - intros (fm & body & stores & -> & Hidx & Hd).
    now rewrite (parseMarkdownFile_split env _ _ Hidx), Hd.
Qed.

(** X4: a text of fewer than six bytes is refused, whatever the deserializer
    would say: with "invalid frontmatter format" when it begins with
    three hyphens, with "no frontmatter found" otherwise. *)
Theorem parse_short_text content :
  (String.length content < 6)%nat ->
  parseMarkdownFile env content =
    if strings.HasPrefix content "---" then Err errInvalidFrontmatter
    else Err errNoFrontmatter.
Proof.
  intros Hlen. rewrite parseMarkdownFile_cases.
  destruct (strings.HasPrefix content "---") eqn:Hp; [|reflexivity].
  destruct (strings.index_from (drop 3 content) "---") as [i|] eqn:Hi;
    [|reflexivity].
  exfalso. destruct (index_from_Some _ _ _ Hi) as (_ & Hsep & _).
  apply HasPrefix_inv in Hsep.
  assert (H3 : (3 <= String.length (drop i (drop 3 content)))%nat).
  { rewrite Hsep, length_append. simpl. lia. }
  rewrite !length_drop in H3. lia.
Qed.

End ParserCases.

(** ** White space around the metadata block and the body *)

Section Hyphens.

Implicit Types s w fm : string.

Lemma noHyphen_append a b : noHyphen (a ++ b) = noHyphen a && noHyphen b.
Proof.
  induction a as [|c a IH]; simpl; [reflexivity|].
  now rewrite IH, andb_assoc.
Qed.

Lemma whitespace_noHyphen w : whitespace w -> noHyphen w = true.
Proof.
  assert (Hrunes : forallb noHyphen strings.spaceRunes = true)
    by (vm_compute; reflexivity).
  rewrite forallb_forall in Hrunes.
  induction 1 as [|r s Hr Hs IH]; [reflexivity|].
  now rewrite noHyphen_append, (Hrunes r Hr), IH.
Qed.

(** No three hyphens begin inside a text without hyphens: the search
    passes over it. *)
Lemma index_from_noHyphen w s :
  noHyphen w = true ->
  strings.index_from (w ++ s) "---"
  = option_map (fun i => (String.length w + i)%nat)
               (strings.index_from s "---").
Proof.
  induction w as [|c w IH]; intros Hw.
  - simpl. now destruct (strings.index_from s "---").
  - simpl in Hw. apply andb_true_iff in Hw as [Hc Hw].
    change (String c w ++ s) with (String c (w ++ s)).
    rewrite index_from_eq.
    replace (strings.HasPrefix (String c (w ++ s)) "---") with false.
    2:{ simpl. apply negb_true_iff in Hc. now rewrite Hc. }
    rewrite (IH Hw). now destruct (strings.index_from s "---").
Qed.

(** Text between the metadata and the closing delimiter moves the
    delimiter and brings no earlier one. *)
Lemma index_from_after fm w x y :
  noHyphen w = true ->
  strings.index_from (fm ++ "---" ++ y) "---" = Some (String.length fm) ->
  strings.index_from (fm ++ w ++ "---" ++ x) "---"
  = Some (String.length fm + String.length w)%nat.
Proof.
  intros Hw. induction fm as [|c fm IH]; intros Hfm.
  - cbn [append String.length]. rewrite (index_from_noHyphen w _ Hw).
    simpl. f_equal. lia.
  - change (String c fm ++ "---" ++ y) with (String c (fm ++ "---" ++ y)) in Hfm.
    change (String c fm ++ w ++ "---" ++ x)
      with (String c (fm ++ w ++ "---" ++ x)).
    rewrite index_from_eq in Hfm. rewrite index_from_eq.
    destruct (strings.HasPrefix (String c (fm ++ "---" ++ y)) "---") eqn:Hp;
      [discriminate|].
    destruct (strings.index_from (fm ++ "---" ++ y) "---") as [i|] eqn:Hi;
      [|discriminate].
    simpl in Hfm. injection Hfm as ->.
    rewrite (IH eq_refl).
    replace (strings.HasPrefix (String c (fm ++ w ++ "---" ++ x)) "---")
      with false; [reflexivity|].
    symmetry. revert Hp. clear.
    destruct fm as [|d [|e fm]]; simpl;
      destruct (Ascii.eqb c "-"); simpl; try reflexivity; try discriminate;
      destruct (Ascii.eqb d "-"); simpl; try reflexivity; try discriminate;
      now intros ->.
Qed.

End Hyphens.

Section TrimmingWhitespace.

Implicit Types s t w r : string.

Lemma HasPrefix_comparable a : forall b s,
  strings.HasPrefix (a ++ s) b = true ->
  strings.HasPrefix a b = true \/ strings.HasPrefix b a = true.
Proof.
  induction a as [|c a IH]; intros b s H.
  - right. reflexivity.
  - destruct b as [|d b]; [left; reflexivity|].
    simpl in H. apply andb_true_iff in H as [Hc Hp].
    apply Ascii.eqb_eq in Hc. subst d.
    destruct (IH _ _ Hp) as [Hl|Hr]; [left | right]; simpl;
      now rewrite Ascii.eqb_refl.
Qed.

(** No white-space rune begins another one. *)
Lemma spaceRunes_prefix_free r r' :
  In r strings.spaceRunes -> In r' strings.spaceRunes ->
  strings.HasPrefix r r' = true \/ strings.HasPrefix r' r = true ->
  r' = r.
Proof.
  assert (H : forallb (fun x =>
                forallb (fun y =>
                  implb (strings.HasPrefix x y || strings.HasPrefix y x)
                        (String.eqb y x))
                  strings.spaceRunes)
                strings.spaceRunes = true) by (vm_compute; reflexivity).
  rewrite forallb_forall in H. intros Hr Hr' Hp.
  specialize (H r Hr). rewrite forallb_forall in H. specialize (H r' Hr').
  apply String.eqb_eq.
  destruct Hp as [Hp|Hp]; rewrite Hp in H;
    [|rewrite orb_true_r in H]; exact H.
Qed.

Lemma dropLeadingSpace_rune r s :
  In r strings.spaceRunes -> strings.dropLeadingSpace (r ++ s) = Some s.
Proof.
  intros Hr. unfold strings.dropLeadingSpace.
  destruct (find (strings.HasPrefix (r ++ s)) strings.spaceRunes)
    as [x|] eqn:E.
  - apply find_some in E as [Hx Hp].
    apply HasPrefix_comparable in Hp.
    rewrite (spaceRunes_prefix_free r x Hr Hx Hp). now rewrite drop_append.
  - pose proof (find_none _ _ E r Hr) as Hn.
    now rewrite HasPrefix_append in Hn.
Qed.

(** Fuel beyond the length of the text changes nothing. *)
Lemma trimLeft_fuel fuel : forall fuel' s,
  (String.length s <= fuel)%nat -> (String.length s <= fuel')%nat ->
  strings.trimLeft fuel s = strings.trimLeft fuel' s.
Proof.
  induction fuel as [|fuel IH]; intros fuel' s Hf Hf'.
  - destruct s; [|simpl in Hf; lia]. now destruct fuel'.
  - destruct fuel' as [|fuel'].
    + destruct s; [|simpl in Hf'; lia]. reflexivity.
    + simpl. destruct (strings.dropLeadingSpace s) as [s'|] eqn:E;
        [|reflexivity].
      destruct (dropLeadingSpace_Some _ _ E) as (r & Hr & ->).
      pose proof (spaceRunes_nonempty r Hr).
      rewrite length_append in Hf, Hf'. apply IH; lia.
Qed.

Lemma TrimLeftSpace_whitespace w s :
  whitespace w -> strings.TrimLeftSpace (w ++ s) = strings.TrimLeftSpace s.
Proof.
  induction 1 as [|r w Hr Hw IH]; [reflexivity|].
  rewrite append_assoc. rewrite <- IH. unfold strings.TrimLeftSpace.
  pose proof (spaceRunes_nonempty r Hr) as Hlen.
  rewrite (length_append r). 
  destruct (String.length r) as [|n] eqn:En; [lia|].
  cbn [Nat.add strings.trimLeft]. rewrite (dropLeadingSpace_rune r _ Hr).
  apply trimLeft_fuel; lia.
Qed.

Lemma append_comparable s : forall x a b,
  s ++ a = x ++ b ->
  (exists y, a = y ++ b) \/ (exists y, b = y ++ a).
Proof.
  induction s as [|c s IH]; intros x a b H.
  - left. now exists x.
  - destruct x as [|d x].
    + right. exists (String c s). now symmetry.
    + injection H as _ H. exact (IH _ _ _ H).
Qed.

(** No white-space rune ends another one. *)
Lemma spaceRunes_suffix_free r r' :
  In r strings.spaceRunes -> In r' strings.spaceRunes ->
  strings.HasSuffix r r' = true \/ strings.HasSuffix r' r = true ->
  r' = r.
Proof.
  assert (H : forallb (fun x =>
                forallb (fun y =>
                  implb (strings.HasSuffix x y || strings.HasSuffix y x)
                        (String.eqb y x))
                  strings.spaceRunes)
                strings.spaceRunes = true) by (vm_compute; reflexivity).
  rewrite forallb_forall in H. intros Hr Hr' Hp.
  specialize (H r Hr). rewrite forallb_forall in H. specialize (H r' Hr').
  apply String.eqb_eq.
  destruct Hp as [Hp|Hp]; rewrite Hp in H;
    [|rewrite orb_true_r in H]; exact H.
Qed.

Lemma dropTrailingSpace_rune r s :
  In r strings.spaceRunes -> strings.dropTrailingSpace (s ++ r) = Some s.
Proof.
  intros Hr. unfold strings.dropTrailingSpace.
  destruct (find (strings.HasSuffix (s ++ r)) strings.spaceRunes)
    as [x|] eqn:E.
  - apply find_some in E as [Hx Hp].
    apply HasSuffix_iff in Hp as [a Ha].
    assert (Hcmp : strings.HasSuffix r x = true \/ strings.HasSuffix x r = true).
    { destruct (append_comparable _ _ _ _ Ha) as [[y ->]|[y ->]];
        [left | right]; apply HasSuffix_iff; now exists y. }
    rewrite (spaceRunes_suffix_free r x Hr Hx Hcmp).
    rewrite length_append.
    replace (String.length s + String.length r - String.length r)%nat
      with (String.length s) by lia.
    now rewrite take_append.
  - pose proof (find_none _ _ E r Hr) as Hn.
    assert (Ht : strings.HasSuffix (s ++ r) r = true)
      by (apply HasSuffix_iff; now exists s).
    rewrite Ht in Hn. discriminate.
Qed.

Lemma trimRight_fuel fuel : forall fuel' s,
  (String.length s <= fuel)%nat -> (String.length s <= fuel')%nat ->
  strings.trimRight fuel s = strings.trimRight fuel' s.
Proof.
  induction fuel as [|fuel IH]; intros fuel' s Hf Hf'.
  - destruct s; [|simpl in Hf; lia]. now destruct fuel'.
  - destruct fuel' as [|fuel'].
    + destruct s; [|simpl in Hf'; lia]. reflexivity.
    + simpl. destruct (strings.dropTrailingSpace s) as [s'|] eqn:E;
        [|reflexivity].
      destruct (dropTrailingSpace_Some _ _ E) as (r & Hr & ->).
      pose proof (spaceRunes_nonempty r Hr).
      rewrite length_append in Hf, Hf'. apply IH; lia.
Qed.

Lemma TrimRightSpace_rune r s :
  In r strings.spaceRunes ->
  strings.TrimRightSpace (s ++ r) = strings.TrimRightSpace s.
Proof.
  intros Hr. unfold strings.TrimRightSpace.
  pose proof (spaceRunes_nonempty r Hr) as Hlen.
  rewrite length_append.
  destruct (String.length r) as [|n] eqn:En; [lia|].
  rewrite Nat.add_succ_r. cbn [strings.trimRight].
  rewrite (dropTrailingSpace_rune r _ Hr).
  apply trimRight_fuel; lia.
Qed.

Lemma TrimRightSpace_whitespace w :
  whitespace w ->
  forall s, strings.TrimRightSpace (s ++ w) = strings.TrimRightSpace s.
Proof.
  induction 1 as [|r w Hr Hw IH]; intros s.
  - now rewrite append_empty_r.
  - rewrite <- append_assoc, IH. now apply TrimRightSpace_rune.
Qed.

End TrimmingWhitespace.

Section WhitespaceAround.

Implicit Types s t w r : string.

Lemma drop_empty n : drop n "" = "".
Proof. now destruct n. Qed.

Lemma HasPrefix_cancel a s b :
  strings.HasPrefix (a ++ s) (a ++ b) = strings.HasPrefix s b.
Proof.
  induction a as [|c a IH]; simpl; [reflexivity|].
  now rewrite Ascii.eqb_refl.
Qed.

(** The bytes of a white-space rune after its first do not begin a
    white-space rune. *)
Lemma spaceRunes_tail x r k :
  In x strings.spaceRunes -> In r strings.spaceRunes ->
  (1 <= k)%nat -> drop k x <> "" ->
  strings.HasPrefix r (drop k x) = false
  /\ strings.HasPrefix (drop k x) r = false.
Proof.
  assert (H : forallb (fun x =>
                String.eqb (drop 3 x) ""
                && forallb (fun r =>
                     forallb (fun k =>
                       String.eqb (drop k x) ""
                       || negb (strings.HasPrefix r (drop k x)
                                || strings.HasPrefix (drop k x) r))
                       [1; 2]%nat)
                     strings.spaceRunes)
                strings.spaceRunes = true) by (vm_compute; reflexivity).
  rewrite forallb_forall in H. intros Hx Hr Hk Hne.
  specialize (H x Hx). apply andb_true_iff in H as [H3 H].
  apply String.eqb_eq in H3.
  rewrite forallb_forall in H. specialize (H r Hr).
  rewrite forallb_forall in H.
  assert (Hk12 : In k [1; 2]%nat).
  { destruct k as [|[|[|k]]]; [lia | now left | right; now left |].
    exfalso. apply Hne.
    change (S (S (S k))) with (3 + k)%nat.
    now rewrite drop_plus, H3, drop_empty. }
  specialize (H k Hk12). apply orb_true_iff in H as [H|H].
  - apply String.eqb_eq in H. contradiction.
  - apply negb_true_iff, orb_false_iff in H. exact H.
Qed.

(** White space behind a text that does not begin with white space does
    not make it begin with white space. *)
Lemma dropLeadingSpace_before_whitespace t w :
  strings.dropLeadingSpace t = None -> t <> "" -> whitespace w ->
  strings.dropLeadingSpace (t ++ w) = None.
Proof.
  intros Ht Hne Hw. destruct Hw as [|r w Hr Hw].
  - now rewrite append_empty_r.
  - unfold strings.dropLeadingSpace.
    destruct (find (strings.HasPrefix (t ++ r ++ w)) strings.spaceRunes)
      as [x|] eqn:E; [exfalso | reflexivity].
    apply find_some in E as [Hx Hp].
    destruct (HasPrefix_comparable _ _ _ Hp) as [Htx|Hxt].
    + rewrite (dropLeadingSpace_None t x Ht Hx) in Htx. discriminate.
    + apply HasPrefix_inv in Hxt.
      set (k := String.length t) in *.
      assert (Hk : (1 <= k)%nat).
      { unfold k. destruct t; [contradiction | simpl; lia]. }
      destruct (String.eqb_spec (drop k x) "") as [Hy|Hy].
      * rewrite Hy, append_empty_r in Hxt.
        pose proof (dropLeadingSpace_None t x Ht Hx) as Hn.
        rewrite Hxt in Hn at 1. 
        rewrite <- (append_empty_r t) in Hn at 1.
        rewrite HasPrefix_append in Hn. discriminate.
      * rewrite Hxt, HasPrefix_cancel in Hp.
        destruct (spaceRunes_tail x r k Hx Hr Hk Hy) as [H1 H2].
        destruct (HasPrefix_comparable _ _ _ Hp) as [H|H];
          [rewrite H in H1 | rewrite H in H2]; discriminate.
Qed.

Lemma TrimLeftSpace_fixed t :
  strings.dropLeadingSpace t = None -> strings.TrimLeftSpace t = t.
Proof.
  intros H. unfold strings.TrimLeftSpace.
  destruct (String.length t); simpl; [reflexivity | now rewrite H].
Qed.

(** White space around a text does not change what [strings.TrimSpace]
    returns for it. *)
Lemma TrimSpace_whitespace l s r :
  whitespace l -> whitespace r ->
  strings.TrimSpace (l ++ s ++ r) = strings.TrimSpace s.
Proof.
  intros Hl Hr. unfold strings.TrimSpace.
  rewrite (TrimLeftSpace_whitespace l _ Hl).
  destruct (trimLeft_spec (String.length s) s) as [(l' & Hs & Hl') Hnone].
  fold (strings.TrimLeftSpace s) in Hs, Hnone.
  specialize (Hnone (Nat.le_refl _)).
  set (t := strings.TrimLeftSpace s) in *.
  rewrite Hs at 1. rewrite append_assoc, (TrimLeftSpace_whitespace l' _ Hl').
  destruct (String.eqb_spec t "") as [Ht|Ht].
  - rewrite Ht. cbn [append].
    rewrite <- (append_empty_r r), (TrimLeftSpace_whitespace r "" Hr).
    reflexivity.
  - rewrite (TrimLeftSpace_fixed _
               (dropLeadingSpace_before_whitespace t r Hnone Ht Hr)).
    now apply TrimRightSpace_whitespace.
Qed.

Variable env : Env.

(** X5: white space around the metadata block and around the body does
    not change what the parser returns. *)
Theorem parse_whitespace_insensitive w1 fm w2 w3 body w4 :
  whitespace w1 -> whitespace w2 -> whitespace w3 -> whitespace w4 ->
  strings.Index (fm ++ "---" ++ body) "---" = len fm ->
  parseMarkdownFile env
    ("---" ++ (w1 ++ fm ++ w2) ++ "---" ++ (w3 ++ body ++ w4))
  = parseMarkdownFile env ("---" ++ fm ++ "---" ++ body).
Proof.
  intros H1 H2 H3 H4 Hidx.
  rewrite (parseMarkdownFile_split env fm body Hidx).
  rewrite parseMarkdownFile_split.
  - now rewrite !TrimSpace_whitespace.
  - apply Index_closing in Hidx.
    unfold strings.Index, len.
    rewrite append_assoc.
    rewrite (index_from_noHyphen w1 _ (whitespace_noHyphen w1 H1)).
    rewrite append_assoc.
    rewrite (index_from_after fm w2 _ body (whitespace_noHyphen w2 H2) Hidx).
    cbn [option_map]. rewrite !length_append. lia.
Qed.

End WhitespaceAround.

(** ** The further properties on the sample content directory *)

Lemma whitespace_LF : whitespace LF.
Proof. apply whitespace_rune. vm_compute. tauto. Qed.

Lemma parse_short_text_sample :
  parseMarkdownFile sampleEnv "---" = Err errInvalidFrontmatter.
Proof.
  apply (parse_short_text sampleEnv "---"). simpl. lia.
Defined.

Lemma parse_whitespace_insensitive_sample :
  parseMarkdownFile sampleEnv otherFile
  = parseMarkdownFile sampleEnv "---slug: other---Other.".
Proof.
  apply (parse_whitespace_insensitive sampleEnv
           LF "slug: other" LF LF "Other." LF);
    try apply whitespace_LF.
  vm_compute. reflexivity.
Defined.

Lemma getAllBlogPosts_reads_and_logs_sample :
  exists posts,
    fst (run (getAllBlogPosts sampleEnv)) = Ok posts
    /\ readsOf (snd (run (getAllBlogPosts sampleEnv)))
       = ["content/broken.md"; "content/first.md"; "content/hello.md";
          "content/other.md"; "content/secret.md"]
    /\ (length posts
        + length (logsOf (snd (run (getAllBlogPosts sampleEnv)))))%nat
       = 5%nat.
Proof.
  apply (getAllBlogPosts_reads_and_logs sampleEnv sampleFiles).
  - intros op H. discriminate H.
  - reflexivity.
Defined.

Lemma getAllBlogPosts_log_iff_sample :
  In ("Error reading file %s: %v",
      [ArgString "content/secret.md";
       ArgError (PathError "open" "content/secret.md" EACCES)])
     (logsOf (snd (run (getAllBlogPosts sampleEnv)))).
Proof.
  apply (getAllBlogPosts_log_iff sampleEnv sampleFiles).
  - intros op H. discriminate H.
  - reflexivity.
  - exists (mkDirEntry "secret.md"). split; [|split].
    + vm_compute. tauto.
    + reflexivity.
    + left. exists "open", EACCES. repeat split.
Defined.

Lemma getBlogPost_finds_in_listing_sample :
  exists posts,
    fst (run (getAllBlogPosts sampleEnv)) = Ok posts
    /\ fst (run (getBlogPost sampleEnv "hello"))
       = match find (fun post => String.eqb (BlogPost.Slug post) "hello") posts
         with
         | Some post => Ok post
         | None => Err (errNotFound "hello")
         end.
Proof.
  apply (getBlogPost_finds_in_listing sampleEnv "hello" sampleFiles).
  - intros op H. discriminate H.
  - reflexivity.
Defined.


Lemma getAllBlogPosts_error_iff_sample :
  fst (run (getAllBlogPosts lockedEnv))
  = Err (PathError "open" contentDir EACCES).
Proof.
  apply (getAllBlogPosts_error_iff lockedEnv).
  split.
  - intros op H. discriminate H.
  - exists "open", EACCES. split; reflexivity.
Defined.
